(** * The debug plugin of opencode-debug: session, server, tunnel and log

    A shallow embedding of [src/index.ts] (the plugin), of
    [example/standalone-server.ts] (the stand-alone server that the
    example README describes as mirroring the plugin) and of the client
    function of [example/test-debug.ts], followed by the properties of
    the specification that can be settled on them and by further
    properties of the code.

    Conventions of the embedding:
    - a JavaScript string is a [string]; each character is one code unit,
      restricted to the range 0..255;
    - a value produced by [req.json()] is a [json]; numbers are the
      integers that a double holds exactly and prints in full (magnitude
      at most 2^53 - 1), an object is the list of its own properties in
      enumeration order (keys pairwise distinct);
    - module-level variables and the outside world (sockets, tunnels,
      files) are fields of one explicit [machine] state;
    - what the platform decides (the clock, the result of a connect or a
      bind, the tunnelling service) is read from an [env] of oracles;
    - an [async] function whose awaits cannot be observed by the claim at
      hand is a function on the state; the ingest handler is also given
      as a task that advances one await at a time. *)

From stdpp Require Import base option list strings pretty gmap fin_maps.
From Stdlib Require Import Ascii ZArith Lia.

Local Open Scope Z_scope.

(** ** JavaScript strings *)

Module Js.

Definition chr (n : nat) : string := String (Ascii.ascii_of_nat n) EmptyString.
Definition dq : string := chr 34.
Definition nl : string := chr 10.
Definition bs : string := chr 92.

Definition code (c : ascii) : nat := Ascii.nat_of_ascii c.

(** [!s] on a string: only the empty string is falsy. *)
Definition nonempty (s : string) : bool :=
  match s with EmptyString => false | String _ _ => true end.

(** [WhiteSpace] and [LineTerminator] code units below 256, what
    [String.prototype.trim] strips. *)
Definition is_space (c : ascii) : bool :=
  let n := code c in
  ((9 <=? n)%nat && (n <=? 13)%nat) || (n =? 32)%nat || (n =? 160)%nat.

Fixpoint trimStart (s : string) : string :=
  match s with
  | EmptyString => EmptyString
  | String c s' => if is_space c then trimStart s' else s
  end.

Fixpoint trimEnd (s : string) : string :=
  match s with
  | EmptyString => EmptyString
  | String c s' =>
      match trimEnd s' with
      | EmptyString => if is_space c then EmptyString else String c EmptyString
      | t => String c t
      end
  end.

Definition trim (s : string) : string := trimEnd (trimStart s).

(** [s.split(sep)] for a separator of one character: never the empty list. *)
Fixpoint split (sep : ascii) (s : string) : list string :=
  match s with
  | EmptyString => [EmptyString]
  | String c s' =>
      if Ascii.eqb c sep then EmptyString :: split sep s'
      else match split sep s' with
           | [] => [String c EmptyString]
           | l :: ls => String c l :: ls
           end
  end.

(** [a.join(sep)] on an array of strings. *)
Definition join (sep : string) (l : list string) : string := String.concat sep l.

(** [s.repeat(n)]. *)
Fixpoint repeat (s : string) (n : nat) : string :=
  match n with O => EmptyString | S n' => s +:+ repeat s n' end.

(** [a.slice(start)]: a negative start counts from the end, and both ends
    are clamped to the array. *)
Definition slice {A} (start : Z) (l : list A) : list A :=
  let len := Z.of_nat (length l) in
  let k := if start <? 0 then Z.max (len + start) 0 else Z.min start len in
  drop (Z.to_nat k) l.

End Js.

(** ** JSON values *)

(** The numbers of the model: [Number.isSafeInteger]. Each is a double
    that [ToString] and [JSON.stringify] print as its decimal digits. *)
Definition safe (n : Z) : bool := Z.abs n <=? 9007199254740991.

Record safe_int : Type := SafeInt {
  int_val : Z;
  int_safe : safe int_val = true;
}.

#[warnings="-register-all"]
Inductive json : Type :=
| JNull
| JBool (b : bool)
| JNum (n : safe_int)
| JStr (s : string)
| JArr (items : list json)
| JObj (props : list (string * json)).

(** ToBoolean. *)
Definition truthy (v : json) : bool :=
  match v with
  | JNull => false
  | JBool b => b
  | JNum n => negb (int_val n =? 0)
  | JStr s => Js.nonempty s
  | JArr _ | JObj _ => true
  end.

(** The number [n], for a literal [n] in the safe range. *)
Abbreviation JInt n := (JNum (SafeInt n eq_refl)) (only parsing).

(** [v.k] for a value [v] that is not null: own properties of an object;
    [undefined] ([None]) on anything else, as no prototype defines
    [label] or [data]. *)
Fixpoint lookup_prop (k : string) (props : list (string * json)) : option json :=
  match props with
  | [] => None
  | (k', v) :: rest => if String.eqb k k' then Some v else lookup_prop k rest
  end.

Definition prop (k : string) (v : json) : option json :=
  match v with
  | JObj props => lookup_prop k props
  | _ => None
  end.

(** ToString, as a template literal applies it; [None] when it throws a
    TypeError. An object is converted by the first callable of its
    [toString] and [valueOf] that returns a primitive: without an own
    property [toString] that is [Object.prototype.toString]; with one, which
    as a parsed value is not callable, only [valueOf] is left, and it is
    either an own property, not callable, or [Object.prototype.valueOf],
    which returns the object: the conversion throws. An array joins the
    conversions of its elements with a comma, null elements giving the
    empty string. *)
Fixpoint toString (v : json) : option string :=
  match v with
  | JNull => Some "null"
  | JBool true => Some "true"
  | JBool false => Some "false"
  | JNum n => Some (pretty (int_val n))
  | JStr s => Some s
  | JArr items =>
      Js.join "," <$>
        mapM (fun x => match x with JNull => Some EmptyString | _ => toString x end) items
  | JObj props =>
      match lookup_prop "toString" props with
      | Some _ => None
      | None => Some "[object Object]"
      end
  end.

Definition hex_digit (n : nat) : string :=
  Js.chr (if (n <? 10)%nat then 48 + n else 87 + n)%nat.

(** QuoteJSONString, one character at a time. *)
Definition escape_char (c : ascii) : string :=
  let n := Js.code c in
  if (n =? 8)%nat then Js.bs +:+ "b"
  else if (n =? 9)%nat then Js.bs +:+ "t"
  else if (n =? 10)%nat then Js.bs +:+ "n"
  else if (n =? 12)%nat then Js.bs +:+ "f"
  else if (n =? 13)%nat then Js.bs +:+ "r"
  else if (n =? 34)%nat then Js.bs +:+ Js.dq
  else if (n =? 92)%nat then Js.bs +:+ Js.bs
  else if (n <? 32)%nat then
    Js.bs +:+ "u00" +:+ hex_digit (n / 16) +:+ hex_digit (n mod 16)
  else String c EmptyString.

Fixpoint escape (s : string) : string :=
  match s with
  | EmptyString => EmptyString
  | String c s' => escape_char c +:+ escape s'
  end.

Definition quote (s : string) : string := Js.dq +:+ escape s +:+ Js.dq.

(** [JSON.stringify(v)] without indentation. *)
Fixpoint JSON_stringify (v : json) : string :=
  match v with
  | JNull => "null"
  | JBool true => "true"
  | JBool false => "false"
  | JNum n => pretty (int_val n)
  | JStr s => quote s
  | JArr items => "[" +:+ Js.join "," (map JSON_stringify items) +:+ "]"
  | JObj props =>
      "{" +:+ Js.join "," (map (fun p => quote (fst p) +:+ ":" +:+ JSON_stringify (snd p)) props)
          +:+ "}"
  end.

(** ** Configuration and paths *)

Record PluginConfig : Type := {
  endpoint : string;
  healthEndpoint : string;
  logDir : string;
  logFileName : string;
  authProvider : string;
  authLabel : string;
  authPromptMessage : string;
}.

Definition defaultConfig : PluginConfig := {|
  endpoint := "/debug";
  healthEndpoint := "/health";
  logDir := ".opencode";
  logFileName := "debug.log";
  authProvider := "ngrok";
  authLabel := "Configure Ngrok Token";
  authPromptMessage := "Enter your Ngrok Authtoken";
|}.

Definition config : PluginConfig := defaultConfig.

Definition generateFetchSnippet (url label dataExpr : string) : string :=
  "fetch(" +:+ Js.dq +:+ url +:+ Js.dq +:+ ", { method: " +:+ Js.dq +:+ "POST" +:+ Js.dq
  +:+ ", headers: { " +:+ Js.dq +:+ "Content-Type" +:+ Js.dq +:+ ": " +:+ Js.dq
  +:+ "application/json" +:+ Js.dq +:+ " }, body: JSON.stringify({ label: " +:+ Js.dq
  +:+ label +:+ Js.dq +:+ ", data: " +:+ dataExpr +:+ " }) }).catch(() => {});".

Definition buildDebugUrl (baseUrl : string) : string := baseUrl +:+ endpoint config.

Definition getLogPath (directory : string) : string :=
  directory +:+ "/" +:+ logDir config +:+ "/" +:+ logFileName config.

Definition getLogDisplayPath : string := logDir config +:+ "/" +:+ logFileName config.

(** ** The platform *)

(** How [Bun.connect] to 127.0.0.1 ends: the [open] callback runs, the
    [error] callback runs, or the returned promise rejects. *)
Inductive connect_outcome : Type := ConnOpen | ConnError | ConnRejected.

Record env : Type := {
  (** [process.env.NGROK_AUTHTOKEN] *)
  NGROK_AUTHTOKEN : option string;
  connect : Z -> connect_outcome;
  (** the port the system assigns to a bind on port 0; [None] when the
      bind throws *)
  ephemeral : option Z;
  (** whether a bind on the given non-zero port succeeds *)
  bindable : Z -> bool;
  (** [ngrok.forward({addr, authtoken})]: [None] when the promise rejects,
      otherwise what [listener.url()] returns *)
  forward : Z -> string -> option (option string);
  (** whether [listener.close()] rejects *)
  close_rejects : bool;
}.

(** The module-level variables of [index.ts], then the outside world:
    the ports on which a [Bun.serve] listener of this process is bound,
    the forwarding sessions that are open, and the files. *)
Record machine : Type := {
  debugModeActive : bool;
  activeDebugUrl : option string;
  server : option Z;
  tunnel : option (Z * string);
  storedNgrokToken : option string;
  sockets : list Z;
  forwards : list (Z * option string);
  files : gmap string string;
}.

Definition init_machine : machine := {|
  debugModeActive := false; activeDebugUrl := None; server := None;
  tunnel := None; storedNgrokToken := None;
  sockets := []; forwards := []; files := ∅ |}.

Definition set_debugModeActive (b : bool) (m : machine) : machine :=
  {| debugModeActive := b; activeDebugUrl := activeDebugUrl m; server := server m;
     tunnel := tunnel m; storedNgrokToken := storedNgrokToken m;
     sockets := sockets m; forwards := forwards m; files := files m |}.
Definition set_activeDebugUrl (u : option string) (m : machine) : machine :=
  {| debugModeActive := debugModeActive m; activeDebugUrl := u; server := server m;
     tunnel := tunnel m; storedNgrokToken := storedNgrokToken m;
     sockets := sockets m; forwards := forwards m; files := files m |}.
Definition set_server (s : option Z) (m : machine) : machine :=
  {| debugModeActive := debugModeActive m; activeDebugUrl := activeDebugUrl m; server := s;
     tunnel := tunnel m; storedNgrokToken := storedNgrokToken m;
     sockets := sockets m; forwards := forwards m; files := files m |}.
Definition set_tunnel (t : option (Z * string)) (m : machine) : machine :=
  {| debugModeActive := debugModeActive m; activeDebugUrl := activeDebugUrl m;
     server := server m; tunnel := t; storedNgrokToken := storedNgrokToken m;
     sockets := sockets m; forwards := forwards m; files := files m |}.
Definition set_storedNgrokToken (t : option string) (m : machine) : machine :=
  {| debugModeActive := debugModeActive m; activeDebugUrl := activeDebugUrl m;
     server := server m; tunnel := tunnel m; storedNgrokToken := t;
     sockets := sockets m; forwards := forwards m; files := files m |}.
Definition set_sockets (l : list Z) (m : machine) : machine :=
  {| debugModeActive := debugModeActive m; activeDebugUrl := activeDebugUrl m;
     server := server m; tunnel := tunnel m; storedNgrokToken := storedNgrokToken m;
     sockets := l; forwards := forwards m; files := files m |}.
Definition set_forwards (l : list (Z * option string)) (m : machine) : machine :=
  {| debugModeActive := debugModeActive m; activeDebugUrl := activeDebugUrl m;
     server := server m; tunnel := tunnel m; storedNgrokToken := storedNgrokToken m;
     sockets := sockets m; forwards := l; files := files m |}.
Definition set_files (f : gmap string string) (m : machine) : machine :=
  {| debugModeActive := debugModeActive m; activeDebugUrl := activeDebugUrl m;
     server := server m; tunnel := tunnel m; storedNgrokToken := storedNgrokToken m;
     sockets := sockets m; forwards := forwards m; files := f |}.

(** Removes the first occurrence of [x]. *)
Fixpoint remove_one {A} `{EqDecision A} (x : A) (l : list A) : list A :=
  match l with
  | [] => []
  | y :: l' => if decide (x = y) then l' else y :: remove_one x l'
  end.

(** ** Computations that read and write the machine and may throw *)

Inductive outcome (A : Type) : Type :=
| Returned (a : A)
| Thrown (what : string).
Arguments Returned {A} a.
Arguments Thrown {A} what.

Definition M (A : Type) : Type := machine -> outcome A * machine.

Definition throw {A} (what : string) : M A := fun m => (Thrown what, m).
Definition read : M machine := fun m => (Returned m, m).
Definition modify (f : machine -> machine) : M unit := fun m => (Returned tt, f m).

#[export] Instance M_ret : MRet M := fun A a m => (Returned a, m).
#[export] Instance M_bind : MBind M := fun A B k c m =>
  match c m with
  | (Returned a, m') => k a m'
  | (Thrown what, m') => (Thrown what, m')
  end.

(** ** LogStore: the log file *)

Definition file_exists (fs : gmap string string) (path : string) : bool :=
  bool_decide (is_Some (fs !! path)).

(** [file.text()], called on an existing file only. *)
Definition file_text (fs : gmap string string) (path : string) : string :=
  default EmptyString (fs !! path).

Definition Bun_write (path content : string) (fs : gmap string string)
  : gmap string string := <[path := content]> fs.

(** The two templates of [appendToLog], once the label is converted. *)
Definition log_text (timestamp shown : string) (data : option json) : string :=
  match data with
  | Some d =>
      "[" +:+ timestamp +:+ "] " +:+ shown +:+ " | " +:+ JSON_stringify d +:+ Js.nl
  | None => "[" +:+ timestamp +:+ "] " +:+ shown +:+ Js.nl
  end.

(** The line that [appendToLog] builds; [timestamp] is what
    [new Date().toISOString()] returns at that moment, [data] is [None]
    for [undefined]. The template literal converts the label, which may
    throw ([None]). *)
Definition log_line (timestamp : string) (label : json) (data : option json)
  : option string :=
  shown ← toString label; Some (log_text timestamp shown data).

(** [appendToLog]; [None] when building the line throws, which happens
    before the file is looked at. *)
Definition appendToLog (timestamp logPath : string) (label : json) (data : option json)
    (fs : gmap string string) : option (gmap string string) :=
  line ← log_line timestamp label data;
  let existing := if file_exists fs logPath then file_text fs logPath else EmptyString in
  Some (Bun_write logPath (existing +:+ line) fs).

(** ** DebugServer: the request handler *)

(** A request: its method, the path of its URL, and what [req.json()]
    resolves to ([None] when it rejects). *)
Record request : Type := {
  method : string;
  pathname : string;
  body : option json;
}.

(** A response: status, the headers the code passes to the constructor,
    and the body. *)
Record response : Type := {
  status : Z;
  headers : list (string * string);
  text : option string;
}.

Definition jsonResponse (data : json) (status : Z) : response :=
  {| status := status;
     headers := [("Content-Type", "application/json")];
     text := Some (JSON_stringify data) |}.

(** [!v], where [None] stands for [null] and [undefined]. *)
Definition js_not (v : option json) : bool :=
  match v with
  | Some x => negb (truthy x)
  | None => true
  end.

(** The [fetch] callback that [createDebugServer] installs, run to
    completion with no other task in between: the response it returns,
    or the error with which it rejects. *)
Definition fetch (logPath now : string) (req : request) (fs : gmap string string)
  : outcome response * gmap string string :=
  if String.eqb (pathname req) (healthEndpoint config) && String.eqb (method req) "GET"
  then (Returned (jsonResponse (JObj [("status", JStr "ok")]) 200), fs)
  else if String.eqb (pathname req) (endpoint config) && String.eqb (method req) "POST"
  then
    let body := body req in
    match body, body ≫= prop "label" with
    | Some b, Some label =>
        if js_not body || js_not (Some label)
        then (Returned {| status := 400; headers := [];
                          text := Some "Missing required field: label" |}, fs)
        else
          match appendToLog now logPath label (prop "data" b) fs with
          | Some fs' => (Returned (jsonResponse (JObj [("received", JBool true)]) 200), fs')
          | None => (Thrown "TypeError", fs)
          end
    | _, _ =>
        (Returned {| status := 400; headers := [];
                     text := Some "Missing required field: label" |}, fs)
    end
  else (Returned {| status := 404; headers := []; text := Some "Not found" |}, fs).

(** *** The stand-alone server of [example/standalone-server.ts] *)

Module Standalone.

Definition LOG_FILE : string := ".opencode/debug.log".

Definition corsHeaders : list (string * string) :=
  [("Access-Control-Allow-Origin", "*");
   ("Access-Control-Allow-Methods", "GET, POST, OPTIONS");
   ("Access-Control-Allow-Headers", "Content-Type")].

(** [Response.json(data, { headers: corsHeaders })]: the headers passed
    are the CORS headers. What the server prints on its console is left
    out. *)
Definition Response_json (data : json) : response :=
  {| status := 200;
     headers := corsHeaders;
     text := Some (JSON_stringify data) |}.

Definition fetch (now : string) (req : request) (fs : gmap string string)
  : outcome response * gmap string string :=
  if String.eqb (method req) "OPTIONS"
  then (Returned {| status := 204; headers := corsHeaders; text := None |}, fs)
  else if String.eqb (pathname req) "/health" && String.eqb (method req) "GET"
  then (Returned (Response_json (JObj [("status", JStr "ok")])), fs)
  else if String.eqb (pathname req) "/debug" && String.eqb (method req) "POST"
  then
    let body := body req in
    match body, body ≫= prop "label" with
    | Some b, Some label =>
        if js_not body || js_not (Some label)
        then (Returned {| status := 400; headers := corsHeaders;
                          text := Some "Missing required field: label" |}, fs)
        else
          match appendToLog now LOG_FILE label (prop "data" b) fs with
          | Some fs' => (Returned (Response_json (JObj [("received", JBool true)])), fs')
          | None => (Thrown "TypeError", fs)
          end
    | _, _ =>
        (Returned {| status := 400; headers := corsHeaders;
                     text := Some "Missing required field: label" |}, fs)
    end
  else (Returned {| status := 404; headers := corsHeaders; text := Some "Not found" |}, fs).

End Standalone.

(** *** The handler as a task

    The plugin's handler suspends at four awaits: [req.json()],
    [file.exists()], [file.text()] and [Bun.write]. A task records the
    operation it is waiting for; a step performs that operation on the
    files as they are then and runs the handler up to its next await. A
    task ends with the response returned or with the error thrown. *)
Inductive task : Type :=
| AwaitJson (req : request)
| AwaitExists (line : string)
| AwaitText (line : string)
| AwaitWrite (content : string)
| Finished (r : response)
| Threw (what : string).

(** The handler from its entry to its first await. *)
Definition spawn (req : request) : task :=
  if String.eqb (pathname req) (healthEndpoint config) && String.eqb (method req) "GET"
  then Finished (jsonResponse (JObj [("status", JStr "ok")]) 200)
  else if String.eqb (pathname req) (endpoint config) && String.eqb (method req) "POST"
  then AwaitJson req
  else Finished {| status := 404; headers := []; text := Some "Not found" |}.

Definition step (logPath now : string) (t : task) (fs : gmap string string)
  : task * gmap string string :=
  match t with
  | AwaitJson req =>
      let body := body req in
      match body, body ≫= prop "label" with
      | Some b, Some label =>
          if js_not body || js_not (Some label)
          then (Finished {| status := 400; headers := [];
                            text := Some "Missing required field: label" |}, fs)
          else
            match log_line now label (prop "data" b) with
            | Some line => (AwaitExists line, fs)
            | None => (Threw "TypeError", fs)
            end
      | _, _ =>
          (Finished {| status := 400; headers := [];
                       text := Some "Missing required field: label" |}, fs)
      end
  | AwaitExists line =>
      if file_exists fs logPath then (AwaitText line, fs)
      else (AwaitWrite (EmptyString +:+ line), fs)
  | AwaitText line => (AwaitWrite (file_text fs logPath +:+ line), fs)
  | AwaitWrite content =>
      (Finished (jsonResponse (JObj [("received", JBool true)]) 200),
       Bun_write logPath content fs)
  | Finished r => (Finished r, fs)
  | Threw what => (Threw what, fs)
  end.

(** A schedule names, step by step, the task that resumes and the clock
    reading at that moment. *)
Fixpoint run (logPath : string) (schedule : list (nat * string)) (tasks : list task)
    (fs : gmap string string) : list task * gmap string string :=
  match schedule with
  | [] => (tasks, fs)
  | (i, now) :: rest =>
      match tasks !! i with
      | Some t =>
          let '(t', fs') := step logPath now t fs in
          run logPath rest (<[i := t']> tasks) fs'
      | None => run logPath rest tasks fs
      end
  end.

(** [n] consecutive steps of one task. *)
Fixpoint steps (n : nat) (logPath now : string) (t : task) (fs : gmap string string)
  : task * gmap string string :=
  match n with
  | O => (t, fs)
  | S n' => let '(t', fs') := step logPath now t fs in steps n' logPath now t' fs'
  end.

(** How a task ends for an outcome of the handler. *)
Definition settled (o : outcome response) : task :=
  match o with
  | Returned r => Finished r
  | Thrown what => Threw what
  end.

(** The schedule that runs the tasks [k], [k+1], ... in turn, each from its
    first await to its end (four steps suffice) before the next starts. *)
Fixpoint serial_from (k : nat) (nows : list string) : list (nat * string) :=
  match nows with
  | [] => []
  | now :: rest => replicate 4 (k, now) ++ serial_from (S k) rest
  end.

Definition serial (nows : list string) : list (nat * string) := serial_from 0 nows.

(** The requests of a list handled one after the other by [fetch]: the
    files at the end, and the responses. *)
Definition serve_all (logPath : string) (reqs : list (string * request))
    (fs : gmap string string) : gmap string string :=
  foldl (fun fs r => (fetch logPath r.1 r.2 fs).2) fs reqs.

Fixpoint responses (logPath : string) (reqs : list (string * request))
    (fs : gmap string string) : list (outcome response) :=
  match reqs with
  | [] => []
  | r :: rest =>
      (fetch logPath r.1 r.2 fs).1 :: responses logPath rest (fetch logPath r.1 r.2 fs).2
  end.

(** ** PortAllocator, TunnelManager and the tools *)

Section Plugin.

Variable e : env.
Variable directory : string.

Definition LOG_PATH : string := getLogPath directory.

(** [Bun.serve({ port, ... })]; the handle is identified with the port it
    is bound to. *)
Definition Bun_serve (port : Z) : M Z :=
  match (if port =? 0 then ephemeral e
         else if bindable e port then Some port else None) with
  | Some p => modify (fun m => set_sockets (p :: sockets m) m) ;; mret p
  | None => throw "Bun.serve"
  end.

Definition server_stop (p : Z) : M unit :=
  modify (fun m => set_sockets (remove_one p (sockets m)) m).

(** [isPortInUse], for an integer port. [Bun.connect] throws at once for
    a port outside 0..65535: the executor of the promise throws and the
    promise rejects, no handler of the socket and no [catch] being
    involved. Otherwise the promise resolves from the [open] handler, the
    [error] handler or the [catch]. *)
Definition isPortInUse (port : Z) : outcome bool :=
  if (port <? 0) || (65535 <? port) then Thrown "RangeError"
  else
    match connect e port with
    | ConnOpen => Returned true
    | ConnError => Returned false
    | ConnRejected => Returned false
    end.

Definition findAvailablePort (preferred : option Z) : M Z :=
  let ephemeral_port : M Z :=
    testServer ← Bun_serve 0;
    let port := testServer in
    server_stop testServer ;;
    mret port in
  match preferred with
  | Some p =>
      match isPortInUse p with
      | Returned inUse => if negb inUse then mret p else ephemeral_port
      | Thrown what => throw what
      end
  | None => ephemeral_port
  end.

Definition createDebugServer (port : Z) : M Z := Bun_serve port.

(** [a ?? b]. *)
Definition nullish {A} (a b : option A) : option A :=
  match a with
  | Some x => Some x
  | None => b
  end.

Definition startTunnel (port : Z) (authtoken : option string) : M (option string) :=
  let token := nullish (NGROK_AUTHTOKEN e) authtoken in
  match token with
  | None => mret None
  | Some token =>
      if negb (Js.nonempty token) then mret None
      else
        match forward e port token with
        | None => throw "ngrok.forward"
        | Some url =>
            modify (fun m => set_forwards ((port, url) :: forwards m) m) ;;
            match url with
            | None => mret None
            | Some url =>
                if negb (Js.nonempty url) then mret None
                else modify (set_tunnel (Some (port, url))) ;; mret (Some url)
            end
        end
  end.

(** [tunnel.close().catch(() => {})]. *)
Definition tunnel_close (t : Z * string) : M unit :=
  if close_rejects e then mret tt
  else modify (fun m => set_forwards (remove_one (t.1, Some t.2) (forwards m)) m).

Definition stopServer : M unit :=
  m ← read;
  match tunnel m with
  | Some t => tunnel_close t ;; modify (set_tunnel None)
  | None => mret tt
  end ;;
  m ← read;
  match server m with
  | Some s => server_stop s ;; modify (set_server None)
  | None => mret tt
  end.

(** [publicUrl ?? localUrl] as [debug_start] and [debug_status] compute it
    from the server handle and the tunnel. *)
Definition current_url (port : Z) (t : option (Z * string)) : string :=
  let localUrl := buildDebugUrl ("http://localhost:" +:+ pretty port) in
  let publicUrl :=
    match t with
    | Some (_, url) => if Js.nonempty url then Some (buildDebugUrl url) else None
    | None => None
    end in
  default localUrl publicUrl.

Definition already_running (url : string) : string :=
  "Debug server already running!" +:+ Js.nl +:+ Js.nl +:+ "Debug URL: " +:+ url
  +:+ Js.nl +:+ Js.nl
  +:+ "**Next Step:** Insert fetch() calls in the code where you need to capture data, then ask the user to reproduce the issue.".

Definition started (url : string) : string :=
  Js.join Js.nl [
    "# Debug Mode Started" +:+ Js.nl;
    "**Debug URL:** " +:+ url;
    "**Log File:** " +:+ getLogDisplayPath;
    EmptyString;
    "## Next Steps:";
    "1. **Instrument the code** - Insert fetch() calls at key locations";
    "2. **Hand back to user** - Ask them to reproduce the issue";
    "3. **Read logs** - Use debug_read to analyze captured data";
    EmptyString;
    "## Fetch Call Template:";
    "```javascript";
    generateFetchSnippet url "label-here" "{ key: value }";
    "```";
    EmptyString;
    "## Placement Guidelines:";
    "- Function entry/exit points";
    "- Before/after async operations";
    "- Inside catch blocks for errors";
    "- State changes and variable mutations";
    "- Conditional branches to trace control flow";
    EmptyString;
    "Use descriptive labels like 'handleSubmit-entry', 'api-response', 'error-caught'"
  ].

Definition debug_start (args_port : option Z) : M string :=
  m ← read;
  match server m with
  | Some s => mret (already_running (current_url s (tunnel m)))
  | None =>
      port ← findAvailablePort args_port;
      s ← createDebugServer port;
      modify (set_server (Some s)) ;;
      let localUrl := buildDebugUrl ("http://localhost:" +:+ pretty port) in
      m ← read;
      let token := nullish (NGROK_AUTHTOKEN e) (storedNgrokToken m) in
      tunnelUrl ← startTunnel port token;
      let publicUrl :=
        match tunnelUrl with
        | Some u => if Js.nonempty u then Some (buildDebugUrl u) else None
        | None => None
        end in
      let url := default localUrl publicUrl in
      modify (set_debugModeActive true) ;;
      modify (set_activeDebugUrl (Some url)) ;;
      mret (started url)
  end.

Definition debug_stop : M string :=
  m ← read;
  match server m with
  | None => mret "Debug server is not running."
  | Some _ =>
      stopServer ;;
      modify (set_debugModeActive false) ;;
      modify (set_activeDebugUrl None) ;;
      mret (Js.join Js.nl [
        "# Debug Mode Stopped";
        EmptyString;
        "Log file preserved at: " +:+ getLogDisplayPath;
        EmptyString;
        "**Remember:** Remove the fetch() debug calls you inserted in the codebase."
      ])
  end.

Definition debug_clear : M string :=
  m ← read;
  if file_exists (files m) LOG_PATH
  then
    modify (fun m => set_files (Bun_write LOG_PATH EmptyString (files m)) m) ;;
    mret ("Debug log cleared: " +:+ getLogDisplayPath +:+ Js.nl +:+ Js.nl
          +:+ "Ready for fresh debug data.")
  else mret ("Debug log does not exist yet: " +:+ getLogDisplayPath).

(** [content.trim().split("\n").filter(Boolean)]. *)
Definition read_lines (content : string) : list string :=
  filter (fun l => Is_true (Js.nonempty l)) (Js.split "010"%char (Js.trim content)).

(** [args.tail && args.tail > 0 ? lines.slice(-args.tail) : lines], for an
    integer [args.tail]. *)
Definition select_tail (args_tail : option Z) (lines : list string) : list string :=
  match args_tail with
  | Some tail =>
      if negb (tail =? 0) && (0 <? tail) then Js.slice (- tail) lines else lines
  | None => lines
  end.

Definition render_log (output : list string) : string :=
  Js.join Js.nl [
    "# Debug Log (" +:+ pretty (length output) +:+ " entries)";
    Js.repeat "=" 50;
    EmptyString;
    Js.join Js.nl output;
    EmptyString;
    Js.repeat "=" 50;
    "**Analyze the above data to identify the issue.**"
  ].

Definition no_log_yet : string :=
  "No debug log yet." +:+ Js.nl +:+ Js.nl
  +:+ "**Tip:** Make sure fetch() calls are in place and the user has reproduced the issue.".

Definition log_is_empty : string :=
  "Debug log is empty." +:+ Js.nl +:+ Js.nl
  +:+ "**Tip:** The instrumented code paths may not have been executed. Ask the user to reproduce the issue.".

Definition debug_read (args_tail : option Z) : M string :=
  m ← read;
  if negb (file_exists (files m) LOG_PATH) then mret no_log_yet
  else
    let content := file_text (files m) LOG_PATH in
    let lines := read_lines content in
    if (length lines =? 0)%nat then mret log_is_empty
    else
      let output := select_tail args_tail lines in
      mret (render_log output).

Definition debug_status : M string :=
  m ← read;
  match server m with
  | Some s =>
      if negb (debugModeActive m)
      then mret ("Debug mode is **not active**." +:+ Js.nl +:+ Js.nl
                 +:+ "Use debug_start to begin a debugging session.")
      else mret (Js.join Js.nl [
        "# Debug Mode Active";
        EmptyString;
        "**Debug URL:** " +:+ current_url s (tunnel m);
        "**Log File:** " +:+ getLogDisplayPath;
        EmptyString;
        "Use this URL in your fetch() calls to capture debug data."
      ])
  | None => mret ("Debug mode is **not active**." +:+ Js.nl +:+ Js.nl
                  +:+ "Use debug_start to begin a debugging session.")
  end.

(** The [loader] of the auth hook: keeps the key of an [api] credential. *)
Definition auth_loader (auth : option (string * string)) : M unit :=
  match auth with
  | Some (type, key) =>
      if String.eqb type "api" then modify (set_storedNgrokToken (Some key)) else mret tt
  | None => mret tt
  end.

(** A POST or GET that reaches the running server, handled without
    interleaving. *)
Definition serve_request (now : string) (req : request) : M response :=
  m ← read;
  match fetch LOG_PATH now req (files m) with
  | (Returned r, fs) => modify (set_files fs) ;; mret r
  | (Thrown what, fs) => modify (set_files fs) ;; throw what
  end.

End Plugin.

(** ** The vocabulary of the specification *)

(** A session is Inactive exactly when [debug_start] and [debug_stop]
    find no server handle. *)
Definition Inactive (m : machine) : Prop := server m = None.

(** A tunnel is recorded only while a server is. *)
Definition tunnel_needs_server (m : machine) : Prop :=
  server m = None → tunnel m = None.

(** The token [startTunnel] ends up with, when it has one. *)
Definition token_of (e : env) (authtoken : option string) : option string :=
  match nullish (NGROK_AUTHTOKEN e) authtoken with
  | Some t => if Js.nonempty t then Some t else None
  | None => None
  end.

(** A well-formed ingest request for a label and optional data. *)
Definition ingest (label : json) (data : option json) : request :=
  {| method := "POST"; pathname := endpoint config;
     body := Some (JObj (("label", label)
                         :: match data with Some d => [("data", d)] | None => [] end)) |}.

Definition received : response := jsonResponse (JObj [("received", JBool true)]) 200.

(** The text of a label that converts to a string; the empty string
    stands in for a label that does not. *)
Definition rendered (label : json) : string := default EmptyString (toString label).

(** A record that the ingest route accepts and logs: its label is truthy
    and converts to a string. *)
Definition accepted (i : string * json * option json) : Prop :=
  truthy i.1.2 = true ∧ is_Some (toString i.1.2).

(** The lines of a list of records whose labels convert to strings, one
    after the other. *)
Definition log_lines (items : list (string * json * option json)) : string :=
  foldr (fun i acc => log_text i.1.1 (rendered i.1.2) i.2 +:+ acc) EmptyString items.

Definition ingest_all (items : list (string * json * option json))
  : list (string * request) :=
  (fun i => (i.1.1, ingest i.1.2 i.2)) <$> items.

(** The condition of the specification for a 400: the body does not parse,
    or its label field is absent or empty. *)
Definition spec_label_absent_or_empty (body : option json) : bool :=
  match body ≫= prop "label" with
  | None => true
  | Some (JStr EmptyString) => true
  | Some _ => false
  end.

(** The condition of the code for a 400. *)
Definition rejected (body : option json) : bool :=
  js_not body || js_not (body ≫= prop "label").

(** The non-empty lines of a file, in file order. *)
Definition spec_nonempty_lines (content : string) : list string :=
  filter (fun l => l ≠ EmptyString) (Js.split "010"%char content).

(** The last [n] elements of a list, all of them when there are fewer. *)
Definition spec_last (n : nat) {A} (l : list A) : list A := reverse (take n (reverse l)).

(** Whether a string contains a line feed. *)
Fixpoint has_newline (s : string) : bool :=
  match s with
  | EmptyString => false
  | String c s' => Ascii.eqb c "010"%char || has_newline s'
  end.

(** A header by name. *)
Fixpoint assoc (name : string) (l : list (string * string)) : option string :=
  match l with
  | [] => None
  | (k, v) :: l' => if String.eqb k name then Some v else assoc name l'
  end.

Definition header (name : string) (r : response) : option string :=
  assoc name (headers r).

Definition has_cors (r : response) : Prop :=
  header "Access-Control-Allow-Origin" r = Some "*"
  ∧ is_Some (header "Access-Control-Allow-Methods" r)
  ∧ is_Some (header "Access-Control-Allow-Headers" r).

Definition bad_request : response :=
  {| status := 400; headers := []; text := Some "Missing required field: label" |}.

Definition post (path : string) (body : option json) : request :=
  {| method := "POST"; pathname := path; body := body |}.

(** ** Concrete platforms and requests used below *)

Module Sample.

(** No credential, every port free. *)
Definition quiet : env := {|
  NGROK_AUTHTOKEN := None;
  connect := fun _ => ConnError;
  ephemeral := Some 49152;
  bindable := fun _ => true;
  forward := fun _ _ => None;
  close_rejects := false |}.

(** Port 3333 is taken by another listener. *)
Definition busy : env := {|
  NGROK_AUTHTOKEN := None;
  connect := fun p => if p =? 3333 then ConnOpen else ConnError;
  ephemeral := Some 49152;
  bindable := fun p => negb (p =? 3333);
  forward := fun _ _ => None;
  close_rejects := false |}.

(** A credential that the tunnelling service refuses. *)
Definition refused : env := {|
  NGROK_AUTHTOKEN := Some "invalid-token";
  connect := fun _ => ConnError;
  ephemeral := Some 49152;
  bindable := fun _ => true;
  forward := fun _ _ => None;
  close_rejects := false |}.

(** A credential that the tunnelling service accepts. *)
Definition tunnelled : env := {|
  NGROK_AUTHTOKEN := Some "token";
  connect := fun _ => ConnError;
  ephemeral := Some 49152;
  bindable := fun _ => true;
  forward := fun _ _ => Some (Some "https://abc.ngrok.app");
  close_rejects := false |}.

Definition dir : string := "/work".

Definition labelled (label : json) : request :=
  post "/debug" (Some (JObj [("label", label)])).

(** Two requests that resume alternately, one await at a time. *)
Definition interleaved (now1 now2 : string) : list (nat * string) :=
  [(0, now1); (1, now2); (0, now1); (1, now2);
   (0, now1); (1, now2); (0, now1); (1, now2)]%nat.

End Sample.

(** ** The remaining hooks of the plugin *)

(** The instructions that the system-prompt hook adds, for a debug URL. *)
Definition getDebugInstructions (debugUrl : string) : string :=
  Js.join Js.nl [
    EmptyString;
    "## Debug Mode Instructions";
    EmptyString;
    "You are now in DEBUG MODE. Your task is to instrument the codebase with fetch calls to capture runtime data for debugging.";
    EmptyString;
    "### Workflow:";
    "1. **Analyze the issue** - Understand what the user is trying to debug";
    "2. **Identify key locations** - Find functions, handlers, or code paths relevant to the issue";
    "3. **Insert fetch calls** - Place debug fetch calls at strategic points to capture:";
    "   - Function inputs/outputs";
    "   - State changes";
    "   - Error conditions";
    "   - Control flow branches";
    "4. **Hand back to user** - Let them reproduce the issue";
    "5. **Read logs** - Use debug_read to analyze the captured data";
    EmptyString;
    "### Fetch Call Pattern:";
    "```javascript";
    generateFetchSnippet debugUrl "descriptive-label" "{ variable1, variable2 }";
    "```";
    EmptyString;
    "### Best Practices:";
    "- Use descriptive labels like " +:+ Js.dq +:+ "user-login-start" +:+ Js.dq +:+ ", " +:+ Js.dq +:+ "api-response" +:+ Js.dq +:+ ", " +:+ Js.dq +:+ "error-caught" +:+ Js.dq;
    "- Capture relevant variables in the data object";
    "- Place calls at function entry/exit points";
    "- Add calls before and after async operations";
    "- Capture error objects in catch blocks";
    "- Don't forget to capture the state you're debugging";
    EmptyString;
    "### Examples:";
    "```javascript";
    "// At function entry";
    generateFetchSnippet debugUrl "processOrder-entry" "{ orderId, items }";
    EmptyString;
    "// Before async call";
    generateFetchSnippet debugUrl "api-call-start" "{ endpoint, payload }";
    EmptyString;
    "// After async call";
    generateFetchSnippet debugUrl "api-call-complete" "{ response, status }";
    EmptyString;
    "// In catch block";
    generateFetchSnippet debugUrl "error-caught" "{ error: err.message, stack: err.stack }";
    EmptyString;
    "// State changes";
    generateFetchSnippet debugUrl "state-updated" "{ prevState, nextState }";
    "```";
    EmptyString;
    "### Debug URL: " +:+ debugUrl;
    EmptyString
  ].

(** The ["experimental.chat.system.transform"] hook; the result is
    [output.system] after the call. *)
Definition system_transform (system : list string) : M (list string) :=
  m ← read;
  match debugModeActive m, activeDebugUrl m with
  | true, Some url =>
      if Js.nonempty url then mret (system ++ [getDebugInstructions url]) else mret system
  | _, _ => mret system
  end.

(** What [authorize] returns: [{ type: "failed" }] or
    [{ type: "success", key }]. *)
Inductive auth_result : Type :=
| AuthFailed
| AuthSuccess (key : string).

(** [authorize(inputs)]; [inputs] may be [undefined], and so may its
    [token]. *)
Definition authorize (inputs : option (gmap string string)) : auth_result :=
  match inputs ≫= (fun i => i !! "token") with
  | Some token => if Js.nonempty token then AuthSuccess token else AuthFailed
  | None => AuthFailed
  end.

(** The two texts of [debug_status]. *)
Definition status_inactive : string :=
  "Debug mode is **not active**." +:+ Js.nl +:+ Js.nl
  +:+ "Use debug_start to begin a debugging session.".

Definition status_active (url : string) : string :=
  Js.join Js.nl [
    "# Debug Mode Active";
    EmptyString;
    "**Debug URL:** " +:+ url;
    "**Log File:** " +:+ getLogDisplayPath;
    EmptyString;
    "Use this URL in your fetch() calls to capture debug data."
  ].

(** ** Sequences of calls

    A call of a tool or hook, or a request that reaches the server; each
    comes with the platform as it is at that moment. *)
Inductive call : Type :=
| Start (args_port : option Z)
| Stop
| Clear
| Read (args_tail : option Z)
| Status
| Load (auth : option (string * string))
| Transform (system : list string)
| Request (now : string) (req : request).

(** The state after a call. A request is handled only while a server of
    the plugin listens. *)
Definition exec (directory : string) (c : env * call) (m : machine) : machine :=
  match c.2 with
  | Start args_port => (debug_start c.1 args_port m).2
  | Stop => (debug_stop c.1 m).2
  | Clear => (debug_clear directory m).2
  | Read args_tail => (debug_read directory args_tail m).2
  | Status => (debug_status m).2
  | Load auth => (auth_loader auth m).2
  | Transform system => (system_transform system m).2
  | Request now req =>
      match server m with
      | Some _ => (serve_request directory now req m).2
      | None => m
      end
  end.

Definition exec_all (directory : string) (calls : list (env * call)) (m : machine)
  : machine :=
  foldl (fun m c => exec directory c m) m calls.

(** What holds of the variables and resources between calls: the only
    socket bound is that of the server handle; a tunnel is recorded only
    with a server, has a non-empty URL and is among the open forwarding
    sessions; an active session has a server and a non-empty URL; an
    inactive one has no URL. *)
Definition session_invariant (m : machine) : Prop :=
  sockets m = option_list (server m)
  ∧ (∀ t, tunnel m = Some t →
       is_Some (server m) ∧ Js.nonempty t.2 = true ∧ (t.1, Some t.2) ∈ forwards m)
  ∧ (debugModeActive m = true →
       is_Some (server m) ∧ ∃ url, activeDebugUrl m = Some url ∧ Js.nonempty url = true)
  ∧ (debugModeActive m = false → activeDebugUrl m = None).

(** The line of a record without its final line feed. *)
Definition log_record (timestamp shown : string) (data : option json) : string :=
  match data with
  | Some d => "[" +:+ timestamp +:+ "] " +:+ shown +:+ " | " +:+ JSON_stringify d
  | None => "[" +:+ timestamp +:+ "] " +:+ shown
  end.

(** The records of a list of appends, as lines without line feed. *)
Definition log_records (items : list (string * json * option json)) : list string :=
  (fun i => log_record i.1.1 (rendered i.1.2) i.2) <$> items.

(** A record that is accepted and stays one line: no line feed in the
    timestamp nor in the text of the label. *)
Definition one_line (i : string * json * option json) : Prop :=
  accepted i ∧ has_newline i.1.1 = false ∧ has_newline (rendered i.1.2) = false.

(** [sendLog] of [example/test-debug.ts], against a server given by its
    handler, or against none ([None]: the connection fails and the
    [catch] returns [false]). The body is [JSON.stringify({ label, data })],
    in which an [undefined] data is left out; the result is [res.ok]. A
    handler that throws has the server answer with an error status. *)
Definition sendLog
    (server : option (request → gmap string string
                      → outcome response * gmap string string))
    (label : string) (data : option json) (fs : gmap string string)
  : bool * gmap string string :=
  match server with
  | Some handler =>
      let '(res, fs') :=
        handler {| method := "POST"; pathname := "/debug";
                   body := Some (JObj (("label", JStr label)
                                       :: match data with
                                          | Some d => [("data", d)]
                                          | None => []
                                          end)) |} fs in
      match res with
      | Returned res => ((200 <=? status res) && (status res <=? 299), fs')
      | Thrown _ => (false, fs')
      end
  | None => (false, fs)
  end.

(** Whether a string consists of white space only. *)
Fixpoint blank (s : string) : bool :=
  match s with
  | EmptyString => true
  | String c s' => Js.is_space c && blank s'
  end.

(** The calls that may write a file. *)
Definition writes (c : call) : bool :=
  match c with
  | Clear | Request _ _ => true
  | _ => false
  end.

(** Whether the last character of a string is white space. *)
Fixpoint ends_with_space (s : string) : bool :=
  match s with
  | EmptyString => false
  | String c s' =>
      match s' with
      | EmptyString => Js.is_space c
      | String _ _ => ends_with_space s'
      end
  end.

(** Whether the last character of a string is a line feed. *)
Fixpoint ends_with_newline (s : string) : bool :=
  match s with
  | EmptyString => false
  | String c s' =>
      match s' with
      | EmptyString => Ascii.eqb c "010"%char
      | String _ _ => ends_with_newline s'
      end
  end.

(** ** Platforms used in the further properties *)

Module Scenario.

(** The probe finds the port free, yet the bind fails: another process
    took it in between. *)
Definition raced : env := {|
  NGROK_AUTHTOKEN := None;
  connect := fun _ => ConnError;
  ephemeral := Some 49152;
  bindable := fun _ => false;
  forward := fun _ _ => None;
  close_rejects := false |}.

(** The environment variable is set, but empty; the service would accept
    the stored token. *)
Definition empty_variable : env := {|
  NGROK_AUTHTOKEN := Some EmptyString;
  connect := fun _ => ConnError;
  ephemeral := Some 49152;
  bindable := fun _ => true;
  forward := fun _ _ => Some (Some "https://abc.ngrok.app");
  close_rejects := false |}.

(** No environment variable; the service accepts the token ["stored"]
    only. *)
Definition stored_only : env := {|
  NGROK_AUTHTOKEN := None;
  connect := fun _ => ConnError;
  ephemeral := Some 49152;
  bindable := fun _ => true;
  forward := fun _ t => if String.eqb t "stored" then Some (Some "https://abc.ngrok.app")
                        else None;
  close_rejects := false |}.

(** The service opens a listener that reports no URL. *)
Definition no_url : env := {|
  NGROK_AUTHTOKEN := Some "token";
  connect := fun _ => ConnError;
  ephemeral := Some 49152;
  bindable := fun _ => true;
  forward := fun _ _ => Some None;
  close_rejects := false |}.

End Scenario.

(** * Properties *)

(** ** Basic facts about the state and the monad *)

Lemma set_sockets_same m : set_sockets (sockets m) m = m.
Proof. by destruct m. Qed.

Lemma remove_one_head {A} `{EqDecision A} (x : A) l : remove_one x (x :: l) = l.
Proof. simpl. by rewrite decide_True. Qed.

Lemma bind_returned {A B} (c : M A) (k : A → M B) m a m' :
  c m = (Returned a, m') → (c ≫= k) m = k a m'.
Proof. intros Hc. unfold mbind, M_bind. by rewrite Hc. Qed.

Lemma bind_thrown {A B} (c : M A) (k : A → M B) m what m' :
  c m = (Thrown what, m') → (c ≫= k) m = (Thrown what, m').
Proof. intros Hc. unfold mbind, M_bind. by rewrite Hc. Qed.

Ltac unfold_M :=
  unfold mbind, M_bind, mret, M_ret, read, modify, throw in *; simpl in *.

(** ** Port allocation *)

Lemma Bun_serve_ephemeral e q m :
  ephemeral e = Some q →
  Bun_serve e 0 m = (Returned q, set_sockets (q :: sockets m) m).
Proof. intros Hq. unfold Bun_serve. simpl. rewrite Hq. by unfold_M. Qed.

Lemma ephemeral_allocation e q m :
  ephemeral e = Some q → findAvailablePort e None m = (Returned q, m).
Proof.
  intros Hq. unfold findAvailablePort.
  rewrite (bind_returned _ _ _ _ _ (Bun_serve_ephemeral e q m Hq)).
  unfold server_stop. unfold_M. rewrite decide_True by done.
  by destruct m.
Qed.

Lemma ephemeral_failure e m :
  ephemeral e = None → findAvailablePort e None m = (Thrown "Bun.serve", m).
Proof.
  intros Hq. unfold findAvailablePort, Bun_serve. simpl. rewrite Hq. by unfold_M.
Qed.

(** The probe throws for a number that is no port, and otherwise tells
    whether the connection opened. *)
Lemma isPortInUse_range e p :
  p < 0 ∨ 65535 < p → isPortInUse e p = Thrown "RangeError".
Proof.
  intros Hp. unfold isPortInUse.
  destruct (p <? 0) eqn:Hlo; [done|]. destruct (65535 <? p) eqn:Hhi; [done|]. lia.
Qed.

Lemma isPortInUse_port e p :
  0 ≤ p ≤ 65535 →
  isPortInUse e p = Returned (match connect e p with ConnOpen => true | _ => false end).
Proof.
  intros Hp. unfold isPortInUse.
  destruct (p <? 0) eqn:Hlo; [lia|]. destruct (65535 <? p) eqn:Hhi; [lia|].
  by destruct (connect e p).
Qed.

Lemma isPortInUse_open e p :
  isPortInUse e p = Returned true ↔ 0 ≤ p ≤ 65535 ∧ connect e p = ConnOpen.
Proof.
  split.
  - intros Hopen. assert (0 ≤ p ≤ 65535) as Hp.
    { destruct (decide (p < 0 ∨ 65535 < p)) as [Hout|Hin]; [|lia].
      by rewrite (isPortInUse_range e p Hout) in Hopen. }
    split; [done|]. rewrite (isPortInUse_port e p Hp) in Hopen.
    by destruct (connect e p).
  - intros [Hp Hopen]. by rewrite (isPortInUse_port e p Hp), Hopen.
Qed.

Lemma isPortInUse_free e p :
  isPortInUse e p = Returned false ↔ 0 ≤ p ≤ 65535 ∧ connect e p ≠ ConnOpen.
Proof.
  split.
  - intros Hfree. assert (0 ≤ p ≤ 65535) as Hp.
    { destruct (decide (p < 0 ∨ 65535 < p)) as [Hout|Hin]; [|lia].
      by rewrite (isPortInUse_range e p Hout) in Hfree. }
    split; [done|]. rewrite (isPortInUse_port e p Hp) in Hfree.
    by destruct (connect e p).
  - intros [Hp Hopen]. rewrite (isPortInUse_port e p Hp).
    by destruct (connect e p).
Qed.

Lemma preferred_free e p m :
  isPortInUse e p = Returned false → findAvailablePort e (Some p) m = (Returned p, m).
Proof. intros Hfree. unfold findAvailablePort. by rewrite Hfree. Qed.

Lemma preferred_busy e p m :
  isPortInUse e p = Returned true →
  findAvailablePort e (Some p) m = findAvailablePort e None m.
Proof. intros Hbusy. unfold findAvailablePort. by rewrite Hbusy. Qed.

Lemma preferred_out_of_range e p m :
  p < 0 ∨ 65535 < p → findAvailablePort e (Some p) m = (Thrown "RangeError", m).
Proof.
  intros Hp. unfold findAvailablePort. by rewrite (isPortInUse_range e p Hp).
Qed.

(** C8. For a preferred port in 0..65535: it is returned unchanged when
    the probe does not connect to it; when the probe connects (the port
    is busy) the result is the port the system assigns to a bind on port
    0, and no socket stays bound; the allocation throws only when the
    preferred port is busy and that bind fails. For a preferred number
    outside 0..65535 the allocation throws a RangeError and binds
    nothing, whatever the state of the ports. *)
Theorem C8_port_allocation (e : env) (m : machine) (p : Z) :
  (0 ≤ p ≤ 65535 →
     (connect e p ≠ ConnOpen → findAvailablePort e (Some p) m = (Returned p, m))
     ∧ (connect e p = ConnOpen → ∀ q, ephemeral e = Some q →
          findAvailablePort e (Some p) m = (Returned q, m))
     ∧ ((∃ what m', findAvailablePort e (Some p) m = (Thrown what, m'))
          ↔ connect e p = ConnOpen ∧ ephemeral e = None))
  ∧ (p < 0 ∨ 65535 < p →
       findAvailablePort e (Some p) m = (Thrown "RangeError", m)).
Proof.
  split; [|apply preferred_out_of_range].
  intros Hp. split_and!.
  - intros Hfree. apply preferred_free. by apply isPortInUse_free.
  - intros Hbusy q Hq. rewrite preferred_busy by (by apply isPortInUse_open).
    by apply ephemeral_allocation.
  - split.
    + intros (what & m' & Hthrow).
      assert (connect e p = ConnOpen ∨ connect e p ≠ ConnOpen) as [Hbusy|Hfree]
        by (destruct (connect e p); auto; right; congruence).
      * split; [done|]. destruct (ephemeral e) as [q|] eqn:Hq; [|done].
        rewrite preferred_busy in Hthrow by (by apply isPortInUse_open).
        rewrite (ephemeral_allocation e q m Hq) in Hthrow. congruence.
      * rewrite preferred_free in Hthrow by (by apply isPortInUse_free). congruence.
    + intros [Hbusy Hq]. exists "Bun.serve", m.
      rewrite preferred_busy by (by apply isPortInUse_open).
      by apply ephemeral_failure.
Qed.

Lemma C8_port_allocation_witness :
  findAvailablePort Sample.quiet (Some 3333) init_machine = (Returned 3333, init_machine)
  ∧ findAvailablePort Sample.busy (Some 3333) init_machine = (Returned 49152, init_machine)
  ∧ findAvailablePort Sample.busy (Some (-1)) init_machine
    = (Thrown "RangeError", init_machine).
Proof.
  split_and!.
  - apply (proj1 (proj1 (C8_port_allocation Sample.quiet init_machine 3333)
                    ltac:(lia))). done.
  - apply (proj1 (proj2 (proj1 (C8_port_allocation Sample.busy init_machine 3333)
                           ltac:(lia)))); reflexivity.
  - apply (proj2 (C8_port_allocation Sample.busy init_machine (-1))). lia.
Defined.

(** The number 70000 is bound by no listener and a bind on port 0 would
    succeed, yet the allocation neither returns 70000 nor falls back: it
    throws. *)
Lemma C8_counterexample :
  connect Sample.quiet 70000 ≠ ConnOpen
  ∧ ephemeral Sample.quiet = Some 49152
  ∧ findAvailablePort Sample.quiet (Some 70000) init_machine
    = (Thrown "RangeError", init_machine).
Proof. by split_and!. Qed.

(** ** Start and stop *)


Lemma stop_while_inactive e m :
  Inactive m → debug_stop e m = (Returned "Debug server is not running.", m).
Proof. unfold Inactive. intros Hs. unfold debug_stop. unfold_M. by rewrite Hs. Qed.

(** C1. A start on port 0 reports and records the URL
    [http://localhost:0/debug], built from the port that was asked for,
    while the server listens on the port the system assigned; a second
    start, which changes nothing, reports the URL of that port: not the
    URL the session was started with. With a tunnel the second start
    reports the public URL again, and [debug_stop] without a server
    reports that the server is not running and changes nothing. *)
Theorem C1_restart_reports_another_url :
  let '(r1, m1) := debug_start Sample.quiet (Some 0) init_machine in
  let '(r2, m2) := debug_start Sample.quiet (Some 0) m1 in
  let '(r3, m3) := debug_start Sample.tunnelled (Some 3333) init_machine in
  let '(r4, m4) := debug_start Sample.tunnelled (Some 3333) m3 in
  r1 = Returned (started "http://localhost:0/debug")
  ∧ activeDebugUrl m1 = Some "http://localhost:0/debug"
  ∧ server m1 = Some 49152 ∧ sockets m1 = [49152]
  ∧ r2 = Returned
      ("Debug server already running!" +:+ Js.nl +:+ Js.nl
       +:+ "Debug URL: http://localhost:49152/debug" +:+ Js.nl +:+ Js.nl
       +:+ "**Next Step:** Insert fetch() calls in the code where you need to capture data, then ask the user to reproduce the issue.")
  ∧ m2 = m1
  ∧ r3 = Returned (started "https://abc.ngrok.app/debug")
  ∧ r4 = Returned
      ("Debug server already running!" +:+ Js.nl +:+ Js.nl
       +:+ "Debug URL: https://abc.ngrok.app/debug" +:+ Js.nl +:+ Js.nl
       +:+ "**Next Step:** Insert fetch() calls in the code where you need to capture data, then ask the user to reproduce the issue.")
  ∧ m4 = m3
  ∧ forwards m3 = [(3333, Some "https://abc.ngrok.app")]
  ∧ debug_stop Sample.quiet init_machine
    = (Returned "Debug server is not running.", init_machine).
Proof. vm_compute. by split_and!. Qed.

Ltac unfold_start :=
  unfold debug_start, findAvailablePort, createDebugServer, Bun_serve, startTunnel,
    server_stop, nullish in *;
  unfold_M.


(** The invariant holds initially and is kept by [debug_start], whatever
    its outcome. *)
Lemma init_tunnel_needs_server : tunnel_needs_server init_machine.
Proof. done. Qed.

Lemma debug_start_tunnel_needs_server e args_port m :
  tunnel_needs_server m → tunnel_needs_server (debug_start e args_port m).2.
Proof.
  unfold tunnel_needs_server. intros Ht Hs. unfold_start.
  repeat (case_match; simplify_eq/=); auto.
Qed.

(** ** The tunnel *)

(** Without a token the tunnel is not attempted: nothing is asked of the
    tunnelling service and nothing changes. *)
Lemma startTunnel_no_token e port authtoken m :
  token_of e authtoken = None → startTunnel e port authtoken m = (Returned None, m).
Proof.
  unfold token_of, startTunnel. intros Htok.
  destruct (nullish _ _) as [t|]; [|done].
  by destruct (Js.nonempty t).
Qed.

Lemma no_credential_no_token e :
  NGROK_AUTHTOKEN e = None → token_of e None = None.
Proof. unfold token_of. by intros ->. Qed.

(** With a token, a rejected [forward] makes [startTunnel] throw. *)
Lemma startTunnel_rejected e port authtoken token m :
  token_of e authtoken = Some token → forward e port token = None →
  startTunnel e port authtoken m = (Thrown "ngrok.forward", m).
Proof.
  unfold token_of, startTunnel. intros Htok Hfwd.
  destruct (nullish _ _) as [t|]; [|done].
  destruct (Js.nonempty t); simplify_eq/=. by rewrite Hfwd.
Qed.

(** [debug_start] applies [??] to the same two sources before the call. *)
Lemma token_of_nullish e stored :
  token_of e (nullish (NGROK_AUTHTOKEN e) stored) = token_of e stored.
Proof. unfold token_of, nullish. by destruct (NGROK_AUTHTOKEN e). Qed.

(** A session without credential starts on the local URL. *)
Lemma start_without_token e args_port port m :
  Inactive m → tunnel_needs_server m →
  token_of e (storedNgrokToken m) = None →
  findAvailablePort e args_port m = (Returned port, m) →
  port ≠ 0 → bindable e port = true →
  let url := buildDebugUrl ("http://localhost:" +:+ pretty port) in
  ∃ m1, debug_start e args_port m = (Returned (started url), m1)
    ∧ server m1 = Some port ∧ current_url port (tunnel m1) = url ∧ tunnel m1 = None
    ∧ forwards m1 = forwards m ∧ sockets m1 = port :: sockets m.
Proof.
  intros Hs Ht Htok Hport Hnz Hbind url. unfold Inactive, tunnel_needs_server in *.
  specialize (Ht Hs). unfold debug_start. unfold_M. rewrite Hs.
  rewrite Hport. unfold createDebugServer, Bun_serve.
  rewrite (proj2 (Z.eqb_neq port 0) Hnz), Hbind. unfold_M.
  rewrite startTunnel_no_token by (by rewrite token_of_nullish). simpl.
  eexists. split; [done|]. simpl. by rewrite Ht.
Qed.

(** With a token the service rejects, the start throws after the server
    was created: the handle and the socket stay, the session is not
    marked active. *)
Lemma start_forward_rejected e args_port port token m :
  Inactive m →
  token_of e (storedNgrokToken m) = Some token →
  findAvailablePort e args_port m = (Returned port, m) →
  port ≠ 0 → bindable e port = true →
  forward e port token = None →
  debug_start e args_port m
    = (Thrown "ngrok.forward", set_server (Some port) (set_sockets (port :: sockets m) m)).
Proof.
  unfold Inactive. intros Hs Htok Hport Hnz Hbind Hfwd.
  unfold debug_start. unfold_M. rewrite Hs.
  rewrite Hport. unfold createDebugServer, Bun_serve.
  rewrite (proj2 (Z.eqb_neq port 0) Hnz), Hbind. unfold_M.
  rewrite (startTunnel_rejected _ _ _ token); [done | by rewrite token_of_nullish | done].
Qed.

(** With a credential the service accepts, the session runs on the public
    URL, and a second start reports it again. *)
Example start_with_tunnel :
  let '(r, m) := debug_start Sample.tunnelled (Some 3333) init_machine in
  r = Returned (started "https://abc.ngrok.app/debug")
  ∧ tunnel m = Some (3333, "https://abc.ngrok.app")
  ∧ server m = Some 3333
  ∧ activeDebugUrl m = Some "https://abc.ngrok.app/debug"
  ∧ (debug_start Sample.tunnelled None m).1
    = Returned (already_running "https://abc.ngrok.app/debug")
  ∧ (debug_stop Sample.tunnelled m).2 = init_machine.
Proof. vm_compute. by split_and!. Qed.

(** C5. With a credential that the tunnelling service refuses,
    [debug_start] does not complete: it throws, leaving the server handle
    and its socket in place while the session is not marked active, so
    that [debug_status] reports no session and a further [debug_start]
    reports a running server. Without any credential the same start
    succeeds on the local URL. *)
Theorem C5_refused_tunnel_aborts_start :
  let '(r, m) := debug_start Sample.refused (Some 3333) init_machine in
  r = Thrown "ngrok.forward"
  ∧ server m = Some 3333 ∧ sockets m = [3333] ∧ tunnel m = None
  ∧ debugModeActive m = false ∧ activeDebugUrl m = None
  ∧ (debug_status m).1
      = Returned ("Debug mode is **not active**." +:+ Js.nl +:+ Js.nl
                  +:+ "Use debug_start to begin a debugging session.")
  ∧ (debug_start Sample.refused (Some 3333) m).1
      = Returned (already_running "http://localhost:3333/debug")
  ∧ (debug_start Sample.quiet (Some 3333) init_machine).1
      = Returned (started "http://localhost:3333/debug").
Proof. vm_compute. by split_and!. Qed.

(** ** Stop and clear *)

Lemma stopServer_spec e m :
  ∃ m', stopServer e m = (Returned tt, m')
    ∧ files m' = files m ∧ server m' = None ∧ tunnel m' = None
    ∧ storedNgrokToken m' = storedNgrokToken m.
Proof.
  unfold stopServer, tunnel_close, server_stop. unfold_M.
  destruct m as [a u s t k sk fw fs]; simpl.
  destruct t as [t|], s as [s|], (close_rejects e); simpl;
    (eexists; split_and!; [reflexivity|done..]).
Qed.

Lemma debug_stop_files e m : files (debug_stop e m).2 = files m.
Proof.
  unfold debug_stop. unfold_M. destruct (server m); [|done].
  by destruct (stopServer_spec e m) as (m' & -> & Hf & _).
Qed.

(** After [debug_stop] the session is inactive and has no tunnel. *)
Lemma debug_stop_inactive e m :
  tunnel_needs_server m →
  Inactive (debug_stop e m).2 ∧ tunnel (debug_stop e m).2 = None.
Proof.
  unfold Inactive, tunnel_needs_server, debug_stop. unfold_M. intros Ht.
  destruct (server m) eqn:Hs; [|by auto].
  by destruct (stopServer_spec e m) as (m' & -> & _ & ? & ? & _).
Qed.

Lemma debug_read_files directory tail m m' :
  files m' = files m → (debug_read directory tail m').1 = (debug_read directory tail m).1.
Proof. unfold debug_read. unfold_M. intros ->. by repeat case_match. Qed.

Lemma read_lines_empty : read_lines EmptyString = [].
Proof. reflexivity. Qed.

(** C7. [debug_stop] leaves every file as it is, so [debug_read] returns
    after it what it returned before; [debug_clear] on an existing log
    writes the empty content, after which the log has no lines and
    [debug_read] reports an empty log; on a log that was never created it
    reports that the log does not exist and changes nothing. *)
Theorem C7_stop_keeps_log_clear_empties
    (e : env) (directory : string) (tail : option Z) (m : machine) :
  let stopped := (debug_stop e m).2 in
  let cleared := debug_clear directory m in
  files stopped = files m
  ∧ (debug_read directory tail stopped).1 = (debug_read directory tail m).1
  ∧ match files m !! LOG_PATH directory with
    | Some _ =>
        cleared.1 = Returned ("Debug log cleared: .opencode/debug.log" +:+ Js.nl +:+ Js.nl
                              +:+ "Ready for fresh debug data.")
        ∧ files cleared.2 = <[LOG_PATH directory := EmptyString]> (files m)
        ∧ read_lines (file_text (files cleared.2) (LOG_PATH directory)) = []
        ∧ (debug_read directory tail cleared.2).1 = Returned log_is_empty
    | None =>
        cleared = (Returned "Debug log does not exist yet: .opencode/debug.log", m)
        ∧ files cleared.2 !! LOG_PATH directory = None
    end.
Proof.
  intros stopped cleared. split_and!.
  - apply debug_stop_files.
  - apply debug_read_files, debug_stop_files.
  - subst cleared. unfold debug_clear, debug_read, file_exists, file_text, Bun_write.
    unfold_M. destruct (files m !! LOG_PATH directory) as [c|] eqn:Hc; simpl.
    + rewrite lookup_insert_eq. simpl. done.
    + by rewrite Hc.
Qed.

(** ** The log file *)

Lemma append_cons (x : ascii) (a b : string) : String x a +:+ b = String x (a +:+ b).
Proof. reflexivity. Qed.

Lemma length_append (a b : string) :
  String.length (a +:+ b) = (String.length a + String.length b)%nat.
Proof.
  induction a as [|x a IH]; [done|]. rewrite append_cons. simpl. by rewrite IH.
Qed.

Lemma append_assoc (a b c : string) : (a +:+ b) +:+ c = a +:+ b +:+ c.
Proof.
  induction a as [|x a IH]; [done|]. rewrite !append_cons. by rewrite IH.
Qed.

Lemma append_empty_r (a : string) : a +:+ EmptyString = a.
Proof.
  induction a as [|x a IH]; [done|]. rewrite append_cons. by rewrite IH.
Qed.

(** One append: the file at [logPath] becomes its former content, or the
    empty content if it did not exist, followed by the line; no other
    file changes. A label that does not convert to a string makes the
    append throw. *)
Lemma appendToLog_spec timestamp logPath label data fs :
  appendToLog timestamp logPath label data fs
  = match toString label with
    | Some shown =>
        Some (<[logPath := default EmptyString (fs !! logPath)
                            +:+ log_text timestamp shown data]> fs)
    | None => None
    end.
Proof.
  unfold appendToLog, log_line, file_exists, file_text, Bun_write.
  destruct (toString label); [|done]. simpl. by destruct (fs !! logPath).
Qed.

Lemma appendToLog_other timestamp logPath label data fs fs' path :
  appendToLog timestamp logPath label data fs = Some fs' →
  path ≠ logPath → fs' !! path = fs !! path.
Proof.
  rewrite appendToLog_spec. destruct (toString label); [|done].
  intros [= <-] Hne. by rewrite lookup_insert_ne.
Qed.

Lemma rendered_Some label shown : toString label = Some shown → rendered label = shown.
Proof. unfold rendered. by intros ->. Qed.

(** *** A record is one line *)

Lemma has_newline_append a b : has_newline (a +:+ b) = has_newline a || has_newline b.
Proof.
  induction a as [|x a IH]; [done|]. rewrite append_cons. simpl.
  by rewrite IH, orb_assoc.
Qed.

Lemma has_newline_digit x : has_newline (String (pretty_N_char x) EmptyString) = false.
Proof. unfold pretty_N_char. by repeat case_match. Qed.

Lemma has_newline_pretty_N_go x s :
  has_newline s = false → has_newline (pretty_N_go x s) = false.
Proof.
  revert s. induction (N.lt_wf_0 x) as [x _ IH]; intros s Hs.
  destruct (decide (x = 0)%N) as [->|Hx]; [by rewrite pretty_N_go_0|].
  rewrite pretty_N_go_step by lia. apply IH.
  - apply N.div_lt; lia.
  - change (String ?c s) with (String c EmptyString +:+ s).
    by rewrite has_newline_append, has_newline_digit, Hs.
Qed.

Lemma has_newline_pretty_N (x : N) : has_newline (pretty x) = false.
Proof.
  unfold pretty, pretty_N. case_decide; [done|]. by apply has_newline_pretty_N_go.
Qed.

Lemma has_newline_pretty_Z (n : Z) : has_newline (pretty n) = false.
Proof.
  unfold pretty, pretty_Z. destruct n as [|p|p]; [done|..].
  - apply has_newline_pretty_N.
  - rewrite has_newline_append. simpl. apply has_newline_pretty_N.
Qed.

Lemma has_newline_escape_char c : has_newline (escape_char c) = false.
Proof. by destruct c as [[] [] [] [] [] [] [] []]. Qed.

Lemma has_newline_escape s : has_newline (escape s) = false.
Proof.
  induction s as [|c s IH]; [done|]. simpl.
  by rewrite has_newline_append, has_newline_escape_char, IH.
Qed.

Lemma has_newline_quote s : has_newline (quote s) = false.
Proof.
  unfold quote. by rewrite !has_newline_append, has_newline_escape.
Qed.

Lemma has_newline_join sep l :
  has_newline sep = false → Forall (fun s => has_newline s = false) l →
  has_newline (Js.join sep l) = false.
Proof.
  intros Hsep. unfold Js.join. induction 1 as [|s l Hs Hl IH]; [done|].
  destruct l as [|s' l]; [done|].
  change (String.concat sep (s :: s' :: l)) with (s +:+ sep +:+ String.concat sep (s' :: l)).
  by rewrite !has_newline_append, Hs, Hsep, IH.
Qed.

(** Induction on JSON values, with the hypothesis for every element of an
    array and every property value of an object. *)
Lemma json_nested_ind (P : json → Prop) :
  P JNull → (∀ b, P (JBool b)) → (∀ n, P (JNum n)) → (∀ s, P (JStr s)) →
  (∀ items, Forall P items → P (JArr items)) →
  (∀ props, Forall (fun p => P p.2) props → P (JObj props)) →
  ∀ v, P v.
Proof.
  intros Hnull Hbool Hnum Hstr Harr Hobj. fix IH 1. intros [|b|n|s|items|props].
  - apply Hnull.
  - apply Hbool.
  - apply Hnum.
  - apply Hstr.
  - apply Harr. induction items as [|x items IHitems]; constructor; [apply IH|apply IHitems].
  - apply Hobj. induction props as [|[k x] props IHprops]; constructor;
      [apply IH|apply IHprops].
Qed.

(** [JSON.stringify] never produces a line feed: it escapes them. *)
Lemma has_newline_stringify v : has_newline (JSON_stringify v) = false.
Proof.
  induction v as [|[]|n|s|items IH|props IH] using json_nested_ind; try done.
  - apply has_newline_pretty_Z.
  - apply has_newline_quote.
  - cbn [JSON_stringify]. rewrite !has_newline_append, orb_false_r. simpl.
    apply has_newline_join; [done|]. by apply Forall_fmap.
  - cbn [JSON_stringify]. rewrite !has_newline_append, orb_false_r. simpl.
    apply has_newline_join; [done|]. apply Forall_fmap.
    eapply Forall_impl; [apply IH|]. intros [k x] Hx.
    unfold compose. cbn [fst snd] in *.
    by rewrite !has_newline_append, has_newline_quote, Hx.
Qed.

(** [JSON.stringify] never produces the empty text. *)
Lemma length_pretty_N_go x s :
  (String.length s ≤ String.length (pretty_N_go x s))%nat.
Proof.
  revert s. induction (N.lt_wf_0 x) as [x _ IH]; intros s.
  destruct (decide (x = 0)%N) as [->|Hx]; [by rewrite pretty_N_go_0|].
  rewrite pretty_N_go_step by lia.
  etrans; [|apply IH; apply N.div_lt; lia]. simpl. lia.
Qed.

Lemma length_pretty_N (x : N) : (0 < String.length (pretty x))%nat.
Proof.
  unfold pretty, pretty_N. case_decide; [simpl; lia|].
  rewrite pretty_N_go_step by lia.
  eapply Nat.lt_le_trans; [|apply length_pretty_N_go]. simpl. lia.
Qed.

Lemma length_pretty_Z (n : Z) : (0 < String.length (pretty n))%nat.
Proof.
  unfold pretty, pretty_Z. destruct n as [|p|p]; [simpl; lia|..].
  - apply length_pretty_N.
  - rewrite length_append. simpl. lia.
Qed.

Lemma length_stringify v : (0 < String.length (JSON_stringify v))%nat.
Proof.
  destruct v as [|[]|n|s|items|props]; cbn [JSON_stringify];
    first [apply length_pretty_Z | unfold quote; rewrite ?length_append; simpl; lia].
Qed.

Lemma stringify_nonempty v : JSON_stringify v ≠ EmptyString.
Proof.
  intros Hv. pose proof (length_stringify v) as Hlen. rewrite Hv in Hlen. simpl in Hlen. lia.
Qed.

(** The line of a record ends with its only line feed exactly when the
    timestamp and the text of the label contain none. *)
Lemma log_text_one_line timestamp shown data :
  has_newline timestamp = false → has_newline shown = false →
  ∃ record, log_text timestamp shown data = record +:+ Js.nl
    ∧ has_newline record = false.
Proof.
  intros Hts Hlabel. destruct data as [d|].
  - exists ("[" +:+ timestamp +:+ "] " +:+ shown +:+ " | " +:+ JSON_stringify d).
    split.
    + unfold log_text. by rewrite !append_assoc.
    + by rewrite !has_newline_append, Hts, Hlabel, has_newline_stringify.
  - exists ("[" +:+ timestamp +:+ "] " +:+ shown). split.
    + unfold log_text. by rewrite !append_assoc.
    + by rewrite !has_newline_append, Hts, Hlabel.
Qed.

Lemma append_inj_r (a b c : string) : a +:+ c = b +:+ c → a = b.
Proof.
  revert b. induction a as [|x a IH]; intros [|y b] Heq; try done.
  - apply (f_equal String.length) in Heq. rewrite !length_append in Heq.
    simpl in Heq. lia.
  - apply (f_equal String.length) in Heq. rewrite !length_append in Heq.
    simpl in Heq. lia.
  - rewrite !append_cons in Heq. injection Heq as -> Heq. f_equal. by apply IH.
Qed.

Lemma log_text_several_lines timestamp shown data record :
  has_newline shown = true →
  log_text timestamp shown data = record +:+ Js.nl → has_newline record = true.
Proof.
  intros Hlabel. destruct data as [d|]; unfold log_text; intros Heq.
  - replace ("[" +:+ timestamp +:+ "] " +:+ shown +:+ " | " +:+ JSON_stringify d +:+ Js.nl)
      with (("[" +:+ timestamp +:+ "] " +:+ shown +:+ " | " +:+ JSON_stringify d) +:+ Js.nl)
      in Heq by (by rewrite !append_assoc).
    apply append_inj_r in Heq. subst record.
    by rewrite !has_newline_append, Hlabel, !orb_true_r.
  - replace ("[" +:+ timestamp +:+ "] " +:+ shown +:+ Js.nl)
      with (("[" +:+ timestamp +:+ "] " +:+ shown) +:+ Js.nl)
      in Heq by (by rewrite !append_assoc).
    apply append_inj_r in Heq. subst record.
    by rewrite !has_newline_append, Hlabel, !orb_true_r.
Qed.

(** C6, as the code has it. For a label that converts to a string, the
    line appended is [[timestamp] label] followed by a line feed when data
    is omitted and [[timestamp] label | JSON] followed by a line feed when
    data is supplied, and it is put after the former content of the file;
    the line without data is strictly shorter than the line with data;
    the serialised data is never empty and holds no line feed (they are
    escaped); and the record is one line exactly when the text of the
    label holds no line feed. *)
Theorem C6_log_line_format
    (timestamp logPath : string) (label data : json) (shown : string)
    (fs : gmap string string) :
  toString label = Some shown →
  appendToLog timestamp logPath label None fs
    = Some (<[logPath := default EmptyString (fs !! logPath)
                         +:+ "[" +:+ timestamp +:+ "] " +:+ shown +:+ Js.nl]> fs)
  ∧ appendToLog timestamp logPath label (Some data) fs
    = Some (<[logPath := default EmptyString (fs !! logPath)
                         +:+ "[" +:+ timestamp +:+ "] " +:+ shown +:+ " | "
                         +:+ JSON_stringify data +:+ Js.nl]> fs)
  ∧ (∀ line1 line2,
       log_line timestamp label None = Some line1 →
       log_line timestamp label (Some data) = Some line2 →
       (String.length line1 < String.length line2)%nat)
  ∧ JSON_stringify data ≠ EmptyString
  ∧ has_newline (JSON_stringify data) = false
  ∧ JSON_stringify
      (JObj [("status", JInt 200); ("tags", JArr [JStr ("a" +:+ Js.nl +:+ "b"); JNull]);
             ("ok", JBool true)])
    = "{" +:+ Js.dq +:+ "status" +:+ Js.dq +:+ ":200," +:+ Js.dq +:+ "tags" +:+ Js.dq
      +:+ ":[" +:+ Js.dq +:+ "a\nb" +:+ Js.dq +:+ ",null]," +:+ Js.dq +:+ "ok" +:+ Js.dq
      +:+ ":true}"
  ∧ (has_newline timestamp = false →
     ∀ d, has_newline shown = false
          ↔ ∃ record, log_line timestamp label d = Some (record +:+ Js.nl)
                      ∧ has_newline record = false).
Proof.
  intros Htext. split_and!.
  - rewrite appendToLog_spec, Htext. done.
  - rewrite appendToLog_spec, Htext. done.
  - unfold log_line. rewrite Htext. simpl. intros line1 line2 [= <-] [= <-].
    rewrite !length_append. simpl. lia.
  - apply stringify_nonempty.
  - apply has_newline_stringify.
  - reflexivity.
  - intros Hts d. unfold log_line. rewrite Htext. simpl. split.
    + intros Hlabel. destruct (log_text_one_line timestamp shown d Hts Hlabel)
        as (record & -> & Hrecord). by exists record.
    + intros (record & [= Hline] & Hrecord).
      destruct (has_newline shown) eqn:Hlabel; [|done].
      by rewrite (log_text_several_lines _ _ _ _ Hlabel Hline) in Hrecord.
Qed.

Lemma C6_log_line_format_witness :
  toString (JStr "api-response") = Some "api-response"
  ∧ has_newline "api-response" = false
  ∧ has_newline ("a" +:+ Js.nl +:+ "b") = true
  ∧ appendToLog "2026-01-01T00:00:00.000Z" "log" (JStr "api-response")
      (Some (JObj [("status", JInt 200)])) {["log" := "first" +:+ Js.nl]}
    = Some {["log" := "first" +:+ Js.nl
                      +:+ "[2026-01-01T00:00:00.000Z] api-response | {" +:+ Js.dq
                      +:+ "status" +:+ Js.dq +:+ ":200}" +:+ Js.nl]}.
Proof.
  split_and!; [reflexivity..|].
  rewrite (proj1 (proj2 (C6_log_line_format "2026-01-01T00:00:00.000Z" "log"
                           (JStr "api-response") (JObj [("status", JInt 200)])
                           "api-response" {["log" := "first" +:+ Js.nl]} eq_refl))).
  reflexivity.
Defined.

(** The claim as the specification words it fails on a label with a line
    feed: the request is accepted, and the record it appends is read back
    as two lines. *)
Lemma C6_counterexample :
  let label := JStr ("a" +:+ Js.nl +:+ "b") in
  (fetch "log" "T" (post (endpoint config) (Some (JObj [("label", label)]))) ∅).1
    = Returned (jsonResponse (JObj [("received", JBool true)]) 200)
  ∧ (fetch "log" "T" (post (endpoint config) (Some (JObj [("label", label)]))) ∅).2
    = {["log" := "[T] a" +:+ Js.nl +:+ "b" +:+ Js.nl]}
  ∧ read_lines ("[T] a" +:+ Js.nl +:+ "b" +:+ Js.nl) = ["[T] a"; "b"].
Proof. vm_compute. by split_and!. Qed.

(** ** The ingest route *)

Lemma safe_int_eq (a b : safe_int) : int_val a = int_val b → a = b.
Proof.
  destruct a as [a Ha], b as [b Hb]. simpl. intros ->. f_equal. apply proof_irrel.
Qed.

Lemma truthy_false (v : json) :
  truthy v = false ↔ v = JStr EmptyString ∨ v = JInt 0 ∨ v = JBool false ∨ v = JNull.
Proof.
  destruct v as [|[]|n|[|c s]|l|ps]; simpl;
    rewrite ?negb_false_iff, ?Z.eqb_eq; try (intuition congruence).
  split.
  - intros Hn. right. left. f_equal. by apply safe_int_eq.
  - intros [?|[[= ->]|[?|?]]]; done.
Qed.

(** When the code answers 400: the body did not parse, or it is falsy, or
    it has no label property, or its label is falsy. *)
Lemma rejected_iff (b : option json) :
  rejected b = true
  ↔ b = None
    ∨ ∃ v, b = Some v
        ∧ (truthy v = false ∨ prop "label" v = None
           ∨ ∃ l, prop "label" v = Some l ∧ truthy l = false).
Proof.
  unfold rejected, js_not. destruct b as [v|]; simpl; [|by intuition].
  rewrite orb_true_iff, negb_true_iff. destruct (prop "label" v) as [l|] eqn:Hl.
  - rewrite negb_true_iff. split.
    + intros [Hv|Hl']; right; exists v; eauto 6.
    + intros [?|(v' & ? & [?|[?|(l' & ? & ?)]])]; simplify_eq; auto.
  - split; [|by auto]. intros _. right. exists v. auto.
Qed.

(** The outcomes of a POST to the ingest route. *)
Lemma fetch_ingest logPath now b fs :
  fetch logPath now (post (endpoint config) b) fs
  = match b, b ≫= prop "label" with
    | Some body, Some label =>
        if rejected b then (Returned bad_request, fs)
        else
          match toString label with
          | Some shown =>
              (Returned (jsonResponse (JObj [("received", JBool true)]) 200),
               <[logPath := default EmptyString (fs !! logPath)
                            +:+ log_text now shown (prop "data" body)]> fs)
          | None => (Thrown "TypeError", fs)
          end
    | _, _ => (Returned bad_request, fs)
    end.
Proof.
  unfold fetch, rejected. simpl. destruct b as [body|]; [|done]. simpl.
  destruct (prop "label" body) as [label|]; [|done].
  rewrite appendToLog_spec. by destruct (toString label).
Qed.

(** C3, as the code has it. A POST to the ingest route is answered 400
    with the text "Missing required field: label", and no file changes,
    when the body does not parse, is falsy, has no label property or has
    a falsy label (the empty string, 0, false or null). Otherwise, when the
    label converts to a string, the line of (label, data) is appended once
    to the log and the answer is 200 with the JSON body
    [{"received":true}]; when the label does not convert (an object that
    has a property [toString], or an array holding one) the handler throws
    and no file changes. *)
Theorem C3_ingest_validation
    (logPath now : string) (b : option json) (fs : gmap string string) :
  let result := fetch logPath now (post (endpoint config) b) fs in
  (if rejected b
   then result = (Returned {| status := 400; headers := [];
                              text := Some "Missing required field: label" |}, fs)
   else ∃ body label,
     b = Some body ∧ prop "label" body = Some label
     ∧ truthy body = true ∧ truthy label = true
     ∧ match toString label with
       | Some shown =>
           result
           = (Returned {| status := 200;
                          headers := [("Content-Type", "application/json")];
                          text := Some ("{" +:+ Js.dq +:+ "received" +:+ Js.dq
                                        +:+ ":true}") |},
              <[logPath := default EmptyString (fs !! logPath)
                           +:+ log_text now shown (prop "data" body)]> fs)
       | None => result = (Thrown "TypeError", fs)
       end)
  ∧ (rejected b = true
     ↔ b = None
       ∨ ∃ v, b = Some v
           ∧ (truthy v = false ∨ prop "label" v = None
              ∨ ∃ l, prop "label" v = Some l ∧ truthy l = false))
  ∧ (∀ v, truthy v = false
          ↔ v = JStr EmptyString ∨ v = JInt 0 ∨ v = JBool false ∨ v = JNull).
Proof.
  intros result. subst result. split_and!; [|apply rejected_iff|apply truthy_false].
  rewrite fetch_ingest.
  destruct (rejected b) eqn:Hrej.
  - by repeat case_match.
  - unfold rejected, js_not in Hrej. destruct b as [body|]; [|done]. simpl in *.
    destruct (prop "label" body) as [label|] eqn:Hlabel;
      [|by rewrite orb_true_r in Hrej].
    apply orb_false_iff in Hrej as [Hbody Hl]. apply negb_false_iff in Hbody, Hl.
    exists body, label. split_and!; try done. by destruct (toString label).
Qed.

Lemma C3_ingest_validation_witness :
  fetch "log" "T" (post "/debug" (Some (JObj [("label", JStr "A"); ("data", JInt 1)])))
        {["log" := "old" +:+ Js.nl]}
  = (Returned {| status := 200; headers := [("Content-Type", "application/json")];
                 text := Some ("{" +:+ Js.dq +:+ "received" +:+ Js.dq +:+ ":true}") |},
     {["log" := "old" +:+ Js.nl +:+ "[T] A | 1" +:+ Js.nl]}).
Proof.
  destruct (proj1 (C3_ingest_validation "log" "T"
                     (Some (JObj [("label", JStr "A"); ("data", JInt 1)]))
                     {["log" := "old" +:+ Js.nl]}))
    as (body & label & [= <-] & [= <-] & _ & _ & Hresult).
  exact Hresult.
Defined.

(** The claim as the specification words it fails on a label that is
    present and is not the empty string, yet falsy: the number 0. *)
Lemma C3_counterexample :
  let b := Some (JObj [("label", JInt 0)]) in
  spec_label_absent_or_empty b = false
  ∧ fetch "log" "T" (post (endpoint config) b) ∅
    = (Returned {| status := 400; headers := [];
                   text := Some "Missing required field: label" |}, ∅).
Proof. done. Qed.

(** The conversion of a label that is a number or an object. *)
Lemma toString_number n : toString (JNum n) = Some (pretty (int_val n)).
Proof. done. Qed.

Lemma toString_object props :
  toString (JObj props)
  = match lookup_prop "toString" props with
    | Some _ => None
    | None => Some "[object Object]"
    end.
Proof. done. Qed.

(** C10, as the code has it. The label is tested for truthiness: a body
    with a falsy label is answered 400 and not logged, the falsy values
    being the empty string, 0, false and null; a body with a truthy label
    that converts to a string, of any type, is answered 200 and logged
    with that text, a number as its digits and an object without property
    [toString] as [[object Object]]; a body with a truthy label that does
    not convert, as an object with a property [toString], makes the
    handler throw and is not logged. *)
Theorem C10_label_truthiness
    (logPath now : string) (props : list (string * json)) (label : json)
    (fs : gmap string string) :
  lookup_prop "label" props = Some label →
  fetch logPath now (post (endpoint config) (Some (JObj props))) fs
    = (if truthy label
       then
         match toString label with
         | Some shown =>
             (Returned {| status := 200;
                          headers := [("Content-Type", "application/json")];
                          text := Some ("{" +:+ Js.dq +:+ "received" +:+ Js.dq
                                        +:+ ":true}") |},
              <[logPath := default EmptyString (fs !! logPath)
                           +:+ log_text now shown (lookup_prop "data" props)]> fs)
         | None => (Thrown "TypeError", fs)
         end
       else (Returned {| status := 400; headers := [];
                         text := Some "Missing required field: label" |}, fs))
  ∧ (truthy label = false
     ↔ label = JStr EmptyString ∨ label = JInt 0 ∨ label = JBool false ∨ label = JNull)
  ∧ (∀ n, label = JNum n → toString label = Some (pretty (int_val n)))
  ∧ (∀ ps, label = JObj ps →
       toString label
       = match lookup_prop "toString" ps with
         | Some _ => None
         | None => Some "[object Object]"
         end).
Proof.
  intros Hlabel. split_and!.
  - rewrite fetch_ingest. unfold rejected, js_not. simpl. rewrite Hlabel. simpl.
    destruct (truthy label); [|done]. simpl. by destruct (toString label).
  - apply truthy_false.
  - intros n ->. apply toString_number.
  - intros ps ->. apply toString_object.
Qed.

Lemma C10_label_truthiness_witness :
  fetch "log" "T" (Sample.labelled (JInt 42)) ∅
    = (Returned {| status := 200; headers := [("Content-Type", "application/json")];
                   text := Some ("{" +:+ Js.dq +:+ "received" +:+ Js.dq +:+ ":true}") |},
       {["log" := "[T] 42" +:+ Js.nl]})
  ∧ (fetch "log" "T" (Sample.labelled (JObj [("a", JInt 1)])) ∅).2
    = {["log" := "[T] [object Object]" +:+ Js.nl]}
  ∧ fetch "log" "T" (Sample.labelled (JStr EmptyString)) ∅
    = (Returned {| status := 400; headers := [];
                   text := Some "Missing required field: label" |}, ∅).
Proof.
  split_and!.
  - unfold Sample.labelled.
    rewrite (proj1 (C10_label_truthiness "log" "T" [("label", JInt 42)] (JInt 42) ∅ eq_refl)).
    reflexivity.
  - unfold Sample.labelled.
    rewrite (proj1 (C10_label_truthiness "log" "T" [("label", JObj [("a", JInt 1)])]
                      (JObj [("a", JInt 1)]) ∅ eq_refl)).
    reflexivity.
  - unfold Sample.labelled.
    rewrite (proj1 (C10_label_truthiness "log" "T" [("label", JStr EmptyString)]
                      (JStr EmptyString) ∅ eq_refl)).
    reflexivity.
Defined.

(** The claim fails on a label that is truthy and yet has no text: an
    object with a property [toString]. The handler throws and nothing is
    logged. *)
Lemma C10_counterexample :
  let label := JObj [("toString", JInt 1)] in
  truthy label = true
  ∧ fetch "log" "T" (post (endpoint config) (Some (JObj [("label", label)]))) ∅
    = (Thrown "TypeError", ∅).
Proof. done. Qed.

(** ** CORS *)

Lemma fetch_options logPath now path b fs :
  fetch logPath now {| method := "OPTIONS"; pathname := path; body := b |} fs
  = (Returned {| status := 404; headers := []; text := Some "Not found" |}, fs).
Proof. unfold fetch. simpl. by rewrite !andb_false_r. Qed.

(** No answer of the plugin's server carries a CORS header. *)
Lemma fetch_no_cors logPath now req fs r :
  (fetch logPath now req fs).1 = Returned r → ¬ has_cors r.
Proof.
  unfold has_cors, header, fetch. intros Hr (Horigin & _).
  repeat (case_match; simplify_eq/=).
Qed.

(** Every answer of the stand-alone server carries them. *)
Lemma standalone_cors now req fs r :
  (Standalone.fetch now req fs).1 = Returned r → has_cors r.
Proof.
  unfold has_cors, header, Standalone.fetch. intros Hr.
  repeat (case_match; simplify_eq/=); by split_and!.
Qed.

(** C4. The plugin's server answers an OPTIONS request, whatever its path,
    with 404 "Not found" and no header, and none of its answers carries
    the CORS headers; the stand-alone server of the examples answers
    OPTIONS with 204 and the CORS headers and puts them on every answer. *)
Theorem C4_options_unanswered
    (logPath now path : string) (b : option json) (fs : gmap string string) :
  let req := {| method := "OPTIONS"; pathname := path; body := b |} in
  (fetch logPath now req fs).1
    = Returned {| status := 404; headers := []; text := Some "Not found" |}
  ∧ (∀ req', match (fetch logPath now req' fs).1 with
             | Returned r => ¬ has_cors r
             | Thrown _ => True
             end)
  ∧ (∃ r, (Standalone.fetch now req fs).1 = Returned r ∧ status r = 204)
  ∧ (∀ req', match (Standalone.fetch now req' fs).1 with
             | Returned r => has_cors r
             | Thrown _ => True
             end).
Proof.
  intros req. split_and!.
  - subst req. by rewrite fetch_options.
  - intros req'. destruct (fetch logPath now req' fs).1 as [r|what] eqn:Hr; [|done].
    by apply (fetch_no_cors logPath now req' fs).
  - by eexists.
  - intros req'. destruct (Standalone.fetch now req' fs).1 as [r|what] eqn:Hr; [|done].
    by apply (standalone_cors now req' fs).
Qed.

(** ** Reading the log *)

Lemma read_lines_spec content : read_lines content = spec_nonempty_lines (Js.trim content).
Proof.
  unfold read_lines, spec_nonempty_lines. apply list_filter_iff.
  intros [|c l]; simpl; intuition congruence.
Qed.

Lemma slice_last {A} (n : nat) (l : list A) :
  (0 < n)%nat → Js.slice (- Z.of_nat n) l = spec_last n l.
Proof.
  intros Hn. unfold Js.slice, spec_last.
  rewrite take_reverse, reverse_involutive.
  replace (- Z.of_nat n <? 0) with true by (symmetry; apply Z.ltb_lt; lia).
  f_equal. lia.
Qed.

Lemma spec_last_all {A} (n : nat) (l : list A) :
  (length l ≤ n)%nat → spec_last n l = l.
Proof.
  intros Hn. unfold spec_last.
  rewrite take_ge by (by rewrite length_reverse). apply reverse_involutive.
Qed.

Lemma spec_last_length {A} (n : nat) (l : list A) :
  length (spec_last n l) = (n `min` length l)%nat.
Proof. unfold spec_last. rewrite length_reverse, length_take, length_reverse. done. Qed.

(** The lines kept are a suffix of the lines read: order is preserved. *)
Lemma spec_last_suffix {A} (n : nat) (l : list A) : spec_last n l `suffix_of` l.
Proof.
  unfold spec_last. rewrite take_reverse, reverse_involutive. apply suffix_drop.
Qed.

Lemma select_tail_spec (tail : option Z) (lines : list string) :
  select_tail tail lines
  = match tail with
    | Some t => if 0 <? t then spec_last (Z.to_nat t) lines else lines
    | None => lines
    end.
Proof.
  unfold select_tail. destruct tail as [t|]; [|done].
  destruct (0 <? t) eqn:Ht; [|by rewrite andb_false_r].
  apply Z.ltb_lt in Ht.
  replace (t =? 0) with false by (symmetry; apply Z.eqb_neq; lia). simpl.
  rewrite <- slice_last by lia. f_equal. lia.
Qed.

(** *** Logs without white space at their ends *)

Lemma trimEnd_space_end s c :
  Js.is_space c = true →
  Js.trimEnd (s +:+ String c EmptyString) = Js.trimEnd s.
Proof.
  intros Hc. induction s as [|x s IH].
  - simpl. change (EmptyString +:+ String c EmptyString) with (String c EmptyString).
    simpl. by rewrite Hc.
  - rewrite append_cons. simpl. by rewrite IH.
Qed.

Lemma length_trimStart s : (String.length (Js.trimStart s) ≤ String.length s)%nat.
Proof. induction s as [|c s IH]; simpl; [done|]. destruct (Js.is_space c); simpl; lia. Qed.

Lemma length_trimEnd s : (String.length (Js.trimEnd s) ≤ String.length s)%nat.
Proof.
  induction s as [|c s IH]; simpl; [done|].
  destruct (Js.trimEnd s); [destruct (Js.is_space c)|]; simpl in *; lia.
Qed.

(** A string that [trim] leaves alone is left alone by both halves. *)
Lemma trim_fixed s : Js.trim s = s → Js.trimStart s = s ∧ Js.trimEnd s = s.
Proof.
  unfold Js.trim. intros Hs.
  assert (Js.trimStart s = s) as Hstart.
  { destruct s as [|c s]; [done|]. simpl in *.
    destruct (Js.is_space c); [|done].
    pose proof (length_trimEnd (Js.trimStart s)) as H1.
    pose proof (length_trimStart s) as H2.
    rewrite Hs in H1. simpl in H1. lia. }
  split; [done|]. by rewrite Hstart in Hs.
Qed.

Lemma trim_newline_end body :
  body ≠ EmptyString → Js.trim body = body → Js.trim (body +:+ Js.nl) = body.
Proof.
  intros Hne Hfix. destruct (trim_fixed body Hfix) as [Hstart Hend].
  unfold Js.trim. destruct body as [|c body]; [done|].
  rewrite append_cons. simpl in Hstart |- *.
  destruct (Js.is_space c) eqn:Hc.
  - pose proof (length_trimStart body) as Hlen. rewrite Hstart in Hlen. simpl in Hlen. lia.
  - rewrite <- append_cons. unfold Js.nl, Js.chr. by rewrite trimEnd_space_end.
Qed.

Lemma split_nonempty sep s : Js.split sep s ≠ [].
Proof.
  induction s as [|c s IH]; simpl; [done|].
  destruct (Ascii.eqb c sep); [done|]. by destruct (Js.split sep s).
Qed.

Lemma split_sep_end sep s :
  Js.split sep (s +:+ String sep EmptyString) = Js.split sep s ++ [EmptyString].
Proof.
  induction s as [|c s IH].
  - change (EmptyString +:+ String sep EmptyString) with (String sep EmptyString).
    simpl. by rewrite Ascii.eqb_refl.
  - rewrite append_cons. simpl. rewrite IH.
    destruct (Ascii.eqb c sep); [done|].
    pose proof (split_nonempty sep s). by destruct (Js.split sep s).
Qed.

Lemma spec_nonempty_lines_newline_end body :
  spec_nonempty_lines (body +:+ Js.nl) = spec_nonempty_lines body.
Proof.
  unfold spec_nonempty_lines, Js.nl, Js.chr. cbn [Ascii.ascii_of_nat].
  change (Ascii.ascii_of_nat 10) with "010"%char.
  rewrite split_sep_end, filter_app.
  rewrite (filter_cons_False _ EmptyString) by (by intros H; apply H).
  by rewrite filter_nil, app_nil_r.
Qed.

(** On a log that neither starts nor, before its final line feed, ends
    with white space, the lines [debug_read] works on are the non-empty
    lines of the file. *)
Lemma read_lines_trimmed_log body :
  body ≠ EmptyString → Js.trim body = body →
  read_lines (body +:+ Js.nl) = spec_nonempty_lines (body +:+ Js.nl).
Proof.
  intros Hne Hfix. rewrite read_lines_spec, trim_newline_end by done.
  by rewrite spec_nonempty_lines_newline_end.
Qed.

(** C9, as the code has it. The lines [debug_read] works on are the
    non-empty lines of the content once the content as a whole is trimmed
    of leading and trailing white space; with a tail greater than 0 the
    output is the last tail of them in file order, all of them when there
    are fewer; with no tail or a tail of at most 0 it is all of them; and
    [debug_read] renders that output unless there is no line at all. *)
Theorem C9_read_tail (directory content : string) (tail : option Z) (m : machine) :
  files m !! LOG_PATH directory = Some content →
  let lines := spec_nonempty_lines (Js.trim content) in
  let output :=
    match tail with
    | Some t => if 0 <? t then spec_last (Z.to_nat t) lines else lines
    | None => lines
    end in
  read_lines content = lines
  ∧ select_tail tail (read_lines content) = output
  ∧ output `suffix_of` lines
  ∧ (∀ t, tail = Some t → 0 < t → length output = (Z.to_nat t `min` length lines)%nat)
  ∧ debug_read directory tail m
    = (Returned (if decide (lines = []) then log_is_empty else render_log output), m).
Proof.
  intros Hfile lines output.
  assert (read_lines content = lines) as Hlines by apply read_lines_spec.
  assert (select_tail tail (read_lines content) = output) as Hout
    by (rewrite Hlines; apply select_tail_spec).
  split_and!; try done.
  - subst output. destruct tail as [t|]; [|done].
    destruct (0 <? t); [apply spec_last_suffix|done].
  - intros t -> Ht. subst output.
    rewrite (proj2 (Z.ltb_lt 0 t) Ht). apply spec_last_length.
  - unfold debug_read, file_exists, file_text. unfold_M. rewrite Hfile. simpl.
    rewrite Hlines, <- Hout, Hlines. destruct lines; by simpl.
Qed.

Lemma C9_read_tail_witness :
  let content := "[T1] A" +:+ Js.nl +:+ "[T2] B" +:+ Js.nl +:+ "[T3] C" +:+ Js.nl in
  let m := set_files {[ LOG_PATH Sample.dir := content ]} init_machine in
  select_tail (Some 2) (read_lines content) = ["[T2] B"; "[T3] C"]
  ∧ (debug_read Sample.dir (Some 2) m).1 = Returned (render_log ["[T2] B"; "[T3] C"]).
Proof.
  intros content m.
  destruct (C9_read_tail Sample.dir content (Some 2) m) as (_ & Hsel & _ & _ & Hread).
  { reflexivity. }
  split.
  - rewrite Hsel. reflexivity.
  - rewrite Hread. reflexivity.
Defined.

(** What the claim promises, the non-empty lines of the file itself, is
    not what is returned for the log that one POST with the label ["x "]
    and no data produces: the trailing space of its line is trimmed. *)
Lemma C9_counterexample :
  let fs := (fetch "log" "T" (Sample.labelled (JStr "x ")) ∅).2 in
  let content := file_text fs "log" in
  content = "[T] x " +:+ Js.nl
  ∧ spec_nonempty_lines content = ["[T] x "]
  ∧ select_tail None (read_lines content) = ["[T] x"]
  ∧ select_tail None (read_lines content) ≠ spec_nonempty_lines content.
Proof. by vm_compute. Qed.

(** ** Interleaved ingest requests *)

(** Four steps take a task from its first await to its end, and do what
    the handler does when nothing else runs in between. *)
Lemma steps_alone logPath now req fs :
  steps 4 logPath now (spawn req) fs
  = (settled (fetch logPath now req fs).1, (fetch logPath now req fs).2).
Proof.
  unfold spawn, fetch, appendToLog.
  destruct (String.eqb (pathname req) (healthEndpoint config) && String.eqb (method req) "GET");
    [reflexivity|].
  destruct (String.eqb (pathname req) (endpoint config) && String.eqb (method req) "POST");
    [|reflexivity].
  simpl. destruct (body req) as [b|]; [|reflexivity]. simpl.
  destruct (prop "label" b) as [label|]; [|reflexivity].
  unfold js_not. destruct (truthy b), (truthy label); try reflexivity.
  simpl. destruct (log_line now label (prop "data" b)) as [line|]; [|reflexivity].
  simpl. by destruct (file_exists fs logPath).
Qed.

Lemma run_app logPath s1 s2 tasks fs :
  run logPath (s1 ++ s2) tasks fs
  = run logPath s2 (run logPath s1 tasks fs).1 (run logPath s1 tasks fs).2.
Proof.
  revert tasks fs. induction s1 as [|[i now] s1 IH]; intros tasks fs; [done|].
  simpl. destruct (tasks !! i) as [t|]; [|apply IH].
  destruct (step logPath now t fs) as [t' fs']. apply IH.
Qed.

Lemma run_replicate logPath n i now tasks t fs :
  tasks !! i = Some t →
  run logPath (replicate n (i, now)) tasks fs
  = (<[i := (steps n logPath now t fs).1]> tasks, (steps n logPath now t fs).2).
Proof.
  revert tasks t fs. induction n as [|n IH]; intros tasks t fs Hi.
  - simpl. by rewrite list_insert_id.
  - simpl. rewrite Hi. destruct (step logPath now t fs) as [t' fs'].
    rewrite (IH _ t').
    + by rewrite list_insert_insert_eq.
    + apply list_lookup_insert_eq. by eapply lookup_lt_Some.
Qed.

(** Handled one after the other, the requests have the effect of the
    handler applied to each in turn. *)
Lemma run_serial_from logPath (reqs : list (string * request)) (finished : list task) fs :
  run logPath (serial_from (length finished) reqs.*1) (finished ++ (spawn <$> reqs.*2)) fs
  = (finished ++ (settled <$> responses logPath reqs fs), serve_all logPath reqs fs).
Proof.
  revert finished fs. induction reqs as [|[now req] reqs IH]; intros finished fs; [done|].
  cbn [fmap list_fmap serial_from responses serve_all foldl fst snd].
  rewrite run_app.
  rewrite (run_replicate _ _ _ _ _ (spawn req)) by (by apply list_lookup_middle).
  rewrite steps_alone. cbn [fst snd].
  rewrite insert_app_r_alt by lia. rewrite Nat.sub_diag. cbn [insert list_insert].
  specialize (IH (finished ++ [settled (fetch logPath now req fs).1])
                 (fetch logPath now req fs).2).
  rewrite length_app, <- !(assoc_L (++)) in IH. simpl in IH.
  replace (length finished + 1)%nat with (S (length finished)) in IH by lia.
  apply IH.
Qed.

Lemma run_serial logPath (reqs : list (string * request)) fs :
  run logPath (serial reqs.*1) (spawn <$> reqs.*2) fs
  = (settled <$> responses logPath reqs fs, serve_all logPath reqs fs).
Proof. apply (run_serial_from logPath reqs []). Qed.

Lemma prop_data_ingest label data :
  prop "data" (JObj (("label", label)
                     :: match data with Some d => [("data", d)] | None => [] end)) = data.
Proof. by destruct data. Qed.

Lemma fetch_ingest_label logPath now label data fs :
  fetch logPath now (ingest label data) fs
  = if truthy label
    then
      match toString label with
      | Some shown =>
          (Returned received,
           <[logPath := default EmptyString (fs !! logPath) +:+ log_text now shown data]> fs)
      | None => (Thrown "TypeError", fs)
      end
    else (Returned bad_request, fs).
Proof.
  pose proof (prop_data_ingest label data) as Hdata.
  unfold ingest. set (b := JObj _) in *.
  assert (prop "label" b = Some label) as Hlabel by done.
  change {| method := "POST"; pathname := endpoint config; body := Some b |}
    with (post (endpoint config) (Some b)).
  rewrite fetch_ingest. unfold rejected, js_not.
  cbn [mbind option_bind]. rewrite Hlabel, Hdata. by destruct (truthy label).
Qed.

Lemma fetch_accepted logPath now label data fs :
  truthy label = true → is_Some (toString label) →
  fetch logPath now (ingest label data) fs
  = (Returned received,
     <[logPath := default EmptyString (fs !! logPath)
                  +:+ log_text now (rendered label) data]> fs).
Proof.
  intros Hl [shown Htext]. rewrite fetch_ingest_label, Hl, Htext.
  by rewrite (rendered_Some label shown Htext).
Qed.

Lemma log_lines_cons i items :
  log_lines (i :: items) = log_text i.1.1 (rendered i.1.2) i.2 +:+ log_lines items.
Proof. reflexivity. Qed.

(** Handled one after the other, accepted requests put all their lines in
    the log, in the order of the requests. *)
Lemma serve_all_appends logPath i items fs :
  Forall accepted (i :: items) →
  serve_all logPath (ingest_all (i :: items)) fs
  = <[logPath := default EmptyString (fs !! logPath) +:+ log_lines (i :: items)]> fs.
Proof.
  revert i fs. induction items as [|j items IH]; intros [[now label] data] fs Hall.
  - apply Forall_cons_1 in Hall as [[Hl Htext] _]. simpl in *.
    unfold serve_all. simpl. rewrite fetch_accepted by done. simpl.
    by rewrite (append_empty_r (log_text now (rendered label) data)).
  - apply Forall_cons_1 in Hall as [[Hl Htext] Hall].
    specialize (IH j (<[logPath := default EmptyString (fs !! logPath)
                                   +:+ log_text now (rendered label) data]> fs) Hall).
    unfold serve_all in *. cbn [ingest_all fmap list_fmap foldl fst snd] in *.
    simpl in Hl, Htext.
    rewrite (fetch_accepted logPath now label data fs) by done. cbn [snd].
    rewrite IH. rewrite lookup_insert_eq, insert_insert_eq. cbn [default]. unfold id.
    rewrite (log_lines_cons (now, label, data)). cbn [fst snd].
    by rewrite append_assoc.
Qed.

Lemma spawn_ingest label data : spawn (ingest label data) = AwaitJson (ingest label data).
Proof. reflexivity. Qed.

Lemma step_json logPath now label data fs :
  truthy label = true → is_Some (toString label) →
  step logPath now (AwaitJson (ingest label data)) fs
  = (AwaitExists (log_text now (rendered label) data), fs).
Proof.
  intros Hl [shown Htext]. pose proof (prop_data_ingest label data) as Hdata.
  unfold ingest. set (b := JObj _) in *.
  assert (prop "label" b = Some label) as Hlabel by done.
  cbn [step body mbind option_bind]. rewrite Hlabel. unfold js_not.
  cbn [truthy b]. rewrite Hl, Hdata. unfold log_line. rewrite Htext.
  by rewrite (rendered_Some label shown Htext).
Qed.

(** Interleaved at every await, two accepted requests both answer 200 but
    only the line of the second is added to the log. *)
Lemma lost_update logPath now1 now2 label1 data1 label2 data2 fs :
  accepted (now1, label1, data1) → accepted (now2, label2, data2) →
  run logPath (Sample.interleaved now1 now2)
      [spawn (ingest label1 data1); spawn (ingest label2 data2)] fs
  = ([Finished received; Finished received],
     <[logPath := default EmptyString (fs !! logPath)
                  +:+ log_text now2 (rendered label2) data2]> fs).
Proof.
  intros [H1 H1'] [H2 H2']. simpl in H1, H1', H2, H2'.
  unfold Sample.interleaved. rewrite !spawn_ingest.
  cbn [run lookup list_lookup]. rewrite step_json by done.
  cbn [run lookup list_lookup insert list_insert]. rewrite step_json by done.
  cbn [run lookup list_lookup insert list_insert step].
  destruct (fs !! logPath) as [old|] eqn:Hold.
  - do 4 (unfold file_exists, file_text, Bun_write;
          rewrite ?lookup_insert_eq, ?Hold, ?bool_decide_eq_true_2 by done;
          cbn [run lookup list_lookup insert list_insert step default from_option]).
    by rewrite insert_insert_eq.
  - do 4 (unfold file_exists, file_text, Bun_write;
          rewrite ?lookup_insert_eq, ?Hold, ?bool_decide_eq_false_2 by (by intros [? ?]);
          cbn [run lookup list_lookup insert list_insert step default from_option]).
    by rewrite insert_insert_eq.
Qed.

(** C2. Two POSTs with the labels L1 and L2 whose handlers resume
    alternately both get 200, yet the log ends with the single line of L2:
    the append of L1 is lost. The same two requests handled one after the
    other leave both lines. *)
Theorem C2_interleaved_appends_lose_a_line :
  let reqs := [Sample.labelled (JStr "L1"); Sample.labelled (JStr "L2")] in
  let '(tasks, fs) := run "log" (Sample.interleaved "T1" "T2") (spawn <$> reqs) ∅ in
  tasks = [Finished received; Finished received]
  ∧ fs !! "log" = Some ("[T2] L2" +:+ Js.nl)
  ∧ read_lines (file_text fs "log") = ["[T2] L2"]
  ∧ (run "log" (serial ["T1"; "T2"]) (spawn <$> reqs) ∅).2 !! "log"
    = Some ("[T1] L1" +:+ Js.nl +:+ "[T2] L2" +:+ Js.nl).
Proof. by vm_compute. Qed.

(** Handled one after the other, no append is lost: the log ends with its
    former content followed by the lines of all the requests, in order. *)
Lemma serial_no_loss logPath i items fs :
  Forall accepted (i :: items) →
  (run logPath (serial (ingest_all (i :: items)).*1)
       (spawn <$> (ingest_all (i :: items)).*2) fs).2
  = <[logPath := default EmptyString (fs !! logPath) +:+ log_lines (i :: items)]> fs.
Proof. intros Hall. rewrite run_serial. by apply serve_all_appends. Qed.

(** * Further properties of the plugin *)

(** ** Port allocation and the session *)

Lemma findAvailablePort_state e preferred m : (findAvailablePort e preferred m).2 = m.
Proof.
  unfold findAvailablePort, Bun_serve, server_stop. unfold_M.
  destruct preferred as [p|]; [destruct (isPortInUse e p) as [[]|]; try done|];
    (destruct (ephemeral e) as [q|]; simpl; [|done];
     rewrite decide_True by done; by destruct m).
Qed.

Lemma nonempty_buildDebugUrl base : Js.nonempty (buildDebugUrl base) = true.
Proof. by destruct base. Qed.

Lemma session_invariant_init : session_invariant init_machine.
Proof. unfold session_invariant. simpl. by split_and!. Qed.

Lemma debug_start_invariant e args_port m :
  session_invariant m → session_invariant (debug_start e args_port m).2.
Proof.
  unfold session_invariant. intros (Hsock & Htun & Hact & Hinact).
  unfold_start. destruct (server m) as [s|] eqn:Hs.
  { simpl. rewrite Hs. by split_and!. }
  simpl in Hsock.
  assert (tunnel m = None) as Ht.
  { destruct (tunnel m) as [t|] eqn:Ht; [|done]. by destruct (Htun t eq_refl) as ([? ?] & _). }
  assert (debugModeActive m = false) as Hflag.
  { destruct (debugModeActive m); [|done]. by destruct (Hact eq_refl) as ([? ?] & _). }
  specialize (Hinact Hflag).
  repeat (case_match; simplify_eq/=);
    rewrite ?Hsock, ?Ht, ?Hflag, ?Hinact, ?Hs; simpl;
    rewrite ?decide_True by done; simpl;
    rewrite ?Hsock, ?Ht, ?Hflag, ?Hinact, ?Hs; simpl.
  all: split_and!; try done; try (by intros; simplify_eq).
  all: try (intros ? [= <-]; split_and!; eauto; simpl; by (done || constructor)).
  all: try (intros _; split; [eauto|]; eexists; split; [done|];
            (apply nonempty_buildDebugUrl || done)).
Qed.

Lemma debug_stop_invariant e m :
  session_invariant m → session_invariant (debug_stop e m).2.
Proof.
  unfold session_invariant. intros (Hsock & Htun & Hact & Hinact).
  unfold debug_stop, stopServer, tunnel_close, server_stop. unfold_M.
  destruct (server m) as [s|] eqn:Hs.
  - destruct (tunnel m) as [t|] eqn:Ht, (close_rejects e); simpl; rewrite ?Hs; simpl;
      rewrite Hsock; simpl; rewrite decide_True by done; rewrite ?Ht;
      split_and!; try done; by intros; simplify_eq.
  - simpl. rewrite Hs. by split_and!.
Qed.

Lemma exec_invariant directory c m :
  session_invariant m → session_invariant (exec directory c m).
Proof.
  intros Hm. destruct c as [e [p| | |t| |auth|system|now req]]; unfold exec; simpl.
  - by apply debug_start_invariant.
  - by apply debug_stop_invariant.
  - unfold debug_clear. unfold_M. by destruct (file_exists _ _).
  - unfold debug_read. unfold_M. by repeat case_match.
  - unfold debug_status. unfold_M. by repeat case_match.
  - unfold auth_loader. unfold_M. by repeat case_match.
  - unfold system_transform. unfold_M. by repeat case_match.
  - unfold serve_request. unfold_M. destruct (server m); [|done].
    by destruct (fetch _ _ _ _) as [[r|what] fs'].
Qed.

Lemma exec_all_invariant directory calls m :
  session_invariant m → session_invariant (exec_all directory calls m).
Proof.
  revert m. induction calls as [|c calls IH]; intros m Hm; [done|].
  apply IH. by apply exec_invariant.
Qed.

(** X1. Whatever tools and hooks are called and whatever requests arrive,
    in whatever order and with whatever answers of the platform, from the
    start of the process on: at most one socket is bound, and it is the
    one of the server handle; a tunnel is recorded only together with a
    server; the session is marked active only with a server and a
    non-empty URL, and has no URL when it is not. *)
Theorem X1_session_invariant_reachable (directory : string) (calls : list (env * call)) :
  let m := exec_all directory calls init_machine in
  session_invariant m ∧ (length (sockets m) ≤ 1)%nat.
Proof.
  intros m. assert (session_invariant m) as Hm
    by apply exec_all_invariant, session_invariant_init.
  split; [done|]. destruct Hm as (-> & _). destruct (server m); simpl; lia.
Qed.

(** X2. Port allocation leaves nothing behind: whether it returns the
    preferred port, returns a port the system assigned, or throws, the
    state afterwards is the state before; the socket of the test server
    is released. *)
Theorem X2_port_allocation_leaves_no_socket
    (e : env) (preferred : option Z) (m : machine) :
  (findAvailablePort e preferred m).2 = m
  ∧ (∀ q, ephemeral e = Some q → preferred = None →
       findAvailablePort e preferred m = (Returned q, m)).
Proof.
  split; [apply findAvailablePort_state|].
  intros q Hq ->. by apply ephemeral_allocation.
Qed.

Lemma X2_port_allocation_leaves_no_socket_witness :
  findAvailablePort Sample.busy None init_machine = (Returned 49152, init_machine).
Proof.
  by apply (proj2 (X2_port_allocation_leaves_no_socket Sample.busy None init_machine)).
Defined.

(** X3. When [debug_start] throws because a bind failed, be it the bind of
    the test server on port 0 or the bind of the debug server on the
    chosen port, nothing has changed: no handle, no socket, no flag. *)
Theorem X3_bind_failure_leaves_state
    (e : env) (args_port : option Z) (m m' : machine) :
  debug_start e args_port m = (Thrown "Bun.serve", m') → m' = m.
Proof.
  intros Hstart. pose proof (findAvailablePort_state e args_port m) as Hport.
  unfold debug_start, createDebugServer, Bun_serve in Hstart. unfold_M.
  destruct (server m); [done|].
  destruct (findAvailablePort e args_port m) as [[port|what] m0]; simpl in *; subst m0;
    [|by simplify_eq].
  repeat (case_match; simplify_eq/=); try done.
  all: unfold startTunnel in *; unfold_M; repeat (case_match; simplify_eq/=).
Qed.

Lemma X3_bind_failure_leaves_state_witness :
  debug_start Scenario.raced (Some 3333) init_machine = (Thrown "Bun.serve", init_machine).
Proof.
  assert (∃ m', debug_start Scenario.raced (Some 3333) init_machine = (Thrown "Bun.serve", m'))
    as [m' Hm'] by (eexists; reflexivity).
  by rewrite Hm', (X3_bind_failure_leaves_state _ _ _ _ Hm').
Defined.

(** ** The credential *)

Lemma startTunnel_variable e port authtoken m t :
  NGROK_AUTHTOKEN e = Some t →
  startTunnel e port authtoken m = startTunnel e port None m.
Proof. intros Ht. unfold startTunnel, nullish. by rewrite Ht. Qed.

(** X4. The environment variable takes precedence over the token passed to
    [startTunnel]: once it is set, the argument is not looked at; set to
    the empty string it disables the tunnel, even though a token was
    passed; only when it is unset is the argument the token sent to the
    tunnelling service. *)
Theorem X4_token_precedence
    (e : env) (port : Z) (authtoken : option string) (m : machine) :
  (∀ t, NGROK_AUTHTOKEN e = Some t →
     startTunnel e port authtoken m = startTunnel e port None m)
  ∧ (NGROK_AUTHTOKEN e = Some EmptyString →
     startTunnel e port authtoken m = (Returned None, m))
  ∧ (NGROK_AUTHTOKEN e = None → ∀ t url,
     authtoken = Some t → Js.nonempty t = true →
     forward e port t = Some (Some url) → Js.nonempty url = true →
     startTunnel e port authtoken m
     = (Returned (Some url),
        set_tunnel (Some (port, url)) (set_forwards ((port, Some url) :: forwards m) m))).
Proof.
  split_and!.
  - intros t. apply startTunnel_variable.
  - intros Ht. apply startTunnel_no_token. unfold token_of, nullish. by rewrite Ht.
  - intros He t url -> Ht Hfwd Hurl. unfold startTunnel, nullish. unfold_M.
    by rewrite He, Ht, Hfwd, Hurl.
Qed.

Lemma X4_token_precedence_witness :
  startTunnel Scenario.empty_variable 3333 (Some "stored") init_machine
    = (Returned None, init_machine)
  ∧ (startTunnel Scenario.stored_only 3333 (Some "stored") init_machine).1
    = Returned (Some "https://abc.ngrok.app").
Proof.
  split.
  - by apply (X4_token_precedence Scenario.empty_variable 3333 (Some "stored") init_machine).
  - by rewrite (proj2 (proj2 (X4_token_precedence Scenario.stored_only 3333 (Some "stored")
                                init_machine)) eq_refl "stored" "https://abc.ngrok.app").
Defined.

Lemma authorize_success inputs key :
  authorize inputs = AuthSuccess key
  ↔ ∃ i, inputs = Some i ∧ i !! "token" = Some key ∧ Js.nonempty key = true.
Proof.
  unfold authorize. destruct inputs as [i|]; simpl.
  - destruct (i !! "token") as [t|] eqn:Htoken.
    + destruct (Js.nonempty t) eqn:Ht; split.
      * intros [= <-]. eauto.
      * intros (i' & [= <-] & Hk & _). congruence.
      * done.
      * intros (i' & [= <-] & Hk & Hne). congruence.
    + split; [done|]. intros (i' & [= <-] & Hk & _). congruence.
  - split; [done|]. by intros (i' & ? & _).
Qed.

(** X5. From the prompt to the tunnel: a token that [authorize] accepts,
    once the loader has received it as an [api] credential, is the token
    with which [debug_start] opens the tunnel when the environment
    variable is unset, and the session runs on the URL the service
    assigns; a credential of another type is not kept. *)
Theorem X5_prompted_token_reaches_tunnel
    (e : env) (inputs : option (gmap string string)) (key url : string)
    (port : Z) (m : machine) :
  authorize inputs = AuthSuccess key →
  NGROK_AUTHTOKEN e = None →
  Inactive m →
  isPortInUse e port = Returned false → port ≠ 0 → bindable e port = true →
  forward e port key = Some (Some url) → Js.nonempty url = true →
  let loaded := (auth_loader (Some ("api", key)) m).2 in
  storedNgrokToken loaded = Some key
  ∧ (debug_start e (Some port) loaded).1 = Returned (started (buildDebugUrl url))
  ∧ tunnel (debug_start e (Some port) loaded).2 = Some (port, url)
  ∧ (∀ type, type ≠ "api" → (auth_loader (Some (type, key)) m).2 = m).
Proof.
  intros Hauth He Hs Hfree Hnz Hbind Hfwd Hurl loaded.
  apply authorize_success in Hauth as (i & _ & _ & Hkey).
  assert (storedNgrokToken loaded = Some key) as Hstored by done.
  assert (server loaded = None) as Hs' by done.
  split_and!; try done.
  - unfold debug_start, findAvailablePort, createDebugServer, Bun_serve. unfold_M.
    rewrite Hs', Hfree. simpl.
    rewrite (proj2 (Z.eqb_neq port 0) Hnz), Hbind. simpl.
    unfold startTunnel, nullish. unfold_M. rewrite He, Hkey, Hfwd, Hurl. simpl.
    by rewrite Hurl.
  - unfold debug_start, findAvailablePort, createDebugServer, Bun_serve. unfold_M.
    rewrite Hs', Hfree. simpl.
    rewrite (proj2 (Z.eqb_neq port 0) Hnz), Hbind. simpl.
    unfold startTunnel, nullish. unfold_M. rewrite He, Hkey, Hfwd, Hurl. simpl.
    done.
  - intros type Htype. unfold auth_loader.
    by rewrite (proj2 (String.eqb_neq type "api") Htype).
Qed.

Lemma X5_prompted_token_reaches_tunnel_witness :
  (debug_start Scenario.stored_only (Some 3333)
     (auth_loader (Some ("api", "stored")) init_machine).2).1
  = Returned (started "https://abc.ngrok.app/debug").
Proof.
  apply (X5_prompted_token_reaches_tunnel Scenario.stored_only
           (Some {[ "token" := "stored" ]}) "stored" "https://abc.ngrok.app" 3333
           init_machine); try reflexivity.
  intros [=].
Defined.

(** ** Start, stop and status together *)

Lemma inactive_fields m :
  session_invariant m → Inactive m →
  sockets m = [] ∧ tunnel m = None ∧ debugModeActive m = false ∧ activeDebugUrl m = None.
Proof.
  unfold session_invariant, Inactive. intros (Hsock & Htun & Hact & Hinact) Hs.
  rewrite Hs in *. simpl in *.
  assert (debugModeActive m = false) as Hflag.
  { destruct (debugModeActive m); [|done]. by destruct (Hact eq_refl) as ([? ?] & _). }
  split_and!; auto.
  destruct (tunnel m) as [t|]; [|done]. by destruct (Htun t eq_refl) as ([? ?] & _).
Qed.

(** X6. A start that succeeds followed by a stop puts everything back:
    the state after the stop is the state before the start, with the
    socket released and the forwarding session closed, provided closing
    does not fail and the start either recorded a tunnel or opened no
    forwarding session. *)
Theorem X6_start_then_stop_restores
    (e e' : env) (args_port : option Z) (m m1 : machine) (r : string) :
  session_invariant m → Inactive m →
  debug_start e args_port m = (Returned r, m1) →
  close_rejects e' = false →
  is_Some (tunnel m1) ∨ forwards m1 = forwards m →
  (debug_stop e' m1).2 = m.
Proof.
  intros Hinv Hs Hstart Hclose Hfw.
  destruct (inactive_fields m Hinv Hs) as (Hsock & Ht & Hflag & Hurl).
  unfold Inactive in Hs. clear Hinv.
  destruct m as [a u s t k sk fw fs]. simpl in *. subst.
  unfold debug_stop, stopServer, tunnel_close, server_stop.
  unfold_start.
  repeat (case_match; simplify_eq/=);
    rewrite ?Hclose; simpl; rewrite ?decide_True by done;
    destruct Hfw as [[t' Hfw]|Hfw]; simplify_eq/=; try done.
  all: by (exfalso; eapply (f_equal length) in Hfw; simpl in Hfw; lia).
Qed.

Lemma X6_start_then_stop_restores_witness :
  (debug_stop Sample.tunnelled
     (debug_start Sample.tunnelled (Some 3333) init_machine).2).2 = init_machine.
Proof.
  apply (X6_start_then_stop_restores Sample.tunnelled Sample.tunnelled (Some 3333)
           init_machine _ (started "https://abc.ngrok.app/debug")).
  - apply session_invariant_init.
  - reflexivity.
  - vm_compute. reflexivity.
  - reflexivity.
  - left. vm_compute. by eexists.
Defined.

(** X7. When the tunnelling service opens a listener that reports no URL
    (or an empty one), [debug_start] succeeds on the local URL without
    recording a tunnel, and the forwarding session it opened is still
    open after [debug_stop]: nothing closes it. *)
Theorem X7_listener_without_url_stays_open
    (e e' : env) (port : Z) (token : string) (url : option string) (m : machine) :
  Inactive m → tunnel m = None →
  isPortInUse e port = Returned false → port ≠ 0 → bindable e port = true →
  token_of e (storedNgrokToken m) = Some token →
  forward e port token = Some url →
  (∀ u, url = Some u → Js.nonempty u = false) →
  let '(r, m1) := debug_start e (Some port) m in
  r = Returned (started (buildDebugUrl ("http://localhost:" +:+ pretty port)))
  ∧ tunnel m1 = None
  ∧ forwards m1 = (port, url) :: forwards m
  ∧ forwards (debug_stop e' m1).2 = (port, url) :: forwards m.
Proof.
  unfold Inactive. intros Hs Ht Hfree Hnz Hbind Htok Hfwd Hurl.
  unfold token_of in Htok.
  unfold debug_stop, stopServer, tunnel_close, server_stop.
  unfold debug_start, findAvailablePort, createDebugServer, Bun_serve, startTunnel.
  unfold_M. rewrite Hs, Hfree. simpl.
  rewrite (proj2 (Z.eqb_neq port 0) Hnz), Hbind. simpl.
  assert (nullish (NGROK_AUTHTOKEN e) (nullish (NGROK_AUTHTOKEN e) (storedNgrokToken m))
          = nullish (NGROK_AUTHTOKEN e) (storedNgrokToken m)) as ->
    by (by destruct (NGROK_AUTHTOKEN e)).
  destruct (nullish _ _) as [t|]; [|done].
  destruct (Js.nonempty t) eqn:Hne; simplify_eq/=. rewrite Hfwd. simpl.
  destruct url as [u|]; simpl.
  - rewrite (Hurl u eq_refl). simpl. by rewrite Ht.
  - by rewrite Ht.
Qed.

Lemma X7_listener_without_url_stays_open_witness :
  forwards (debug_stop Scenario.no_url
              (debug_start Scenario.no_url (Some 3333) init_machine).2).2
  = [(3333, None)].
Proof.
  pose proof (X7_listener_without_url_stays_open Scenario.no_url Scenario.no_url
                3333 "token" None init_machine) as H.
  destruct (debug_start Scenario.no_url (Some 3333) init_machine) as [r m1].
  apply H; try reflexivity; try done.
Defined.


Lemma debug_status_spec m :
  debug_status m
  = (Returned match server m with
              | Some s => if debugModeActive m then status_active (current_url s (tunnel m))
                          else status_inactive
              | None => status_inactive
              end, m).
Proof. unfold debug_status. unfold_M. by repeat case_match. Qed.



(** X9. In every state the plugin can reach, the system-prompt hook and
    [debug_status] agree: either the hook appends the instructions for the
    recorded URL after the entries already there and the status is
    active, or the hook leaves the entries as they are and the status is
    not active; the hook never changes the state. *)
Theorem X9_hook_follows_status
    (directory : string) (calls : list (env * call)) (system : list string) :
  let m := exec_all directory calls init_machine in
  (system_transform system m).2 = m
  ∧ ((∃ url url', activeDebugUrl m = Some url
        ∧ (system_transform system m).1 = Returned (system ++ [getDebugInstructions url])
        ∧ (debug_status m).1 = Returned (status_active url'))
     ∨ ((system_transform system m).1 = Returned system
        ∧ (debug_status m).1 = Returned status_inactive)).
Proof.
  intros m.
  assert (session_invariant m) as (_ & _ & Hact & Hinact)
    by apply exec_all_invariant, session_invariant_init.
  rewrite debug_status_spec. unfold system_transform. unfold_M.
  destruct (debugModeActive m) eqn:Hflag.
  - destruct (Hact eq_refl) as ([s Hs] & url & Hurl & Hne).
    rewrite Hurl, Hne, Hs. simpl. split; [done|]. left. by exists url, (current_url s (tunnel m)).
  - rewrite (Hinact eq_refl). simpl. split; [done|]. right. split; [done|].
    by destruct (server m).
Qed.

Lemma append_cancel_r (a b s : string) : a +:+ s = b +:+ s → a = b.
Proof.
  revert b. induction a as [|x a IH]; intros [|y b] Heq; [done|..].
  - apply (f_equal String.length) in Heq. rewrite !length_append in Heq.
    simpl in Heq. lia.
  - apply (f_equal String.length) in Heq. rewrite !length_append in Heq.
    simpl in Heq. lia.
  - rewrite !append_cons in Heq. injection Heq as -> Heq. f_equal. by apply IH.
Qed.

(** X10. Asked for port 0, with the probe of port 0 failing and no
    credential, [debug_start] reports and records the URL of port 0, while
    the server listens on the port the system assigned: [debug_status]
    and a second [debug_start] report that other port. *)
Theorem X10_port_zero_reports_port_zero (e : env) (m : machine) (q : Z) :
  Inactive m → tunnel m = None →
  isPortInUse e 0 = Returned false → ephemeral e = Some q → q ≠ 0 →
  token_of e (storedNgrokToken m) = None →
  let '(r, m1) := debug_start e (Some 0) m in
  let listening := "http://localhost:" +:+ pretty q +:+ "/debug" in
  r = Returned (started "http://localhost:0/debug")
  ∧ activeDebugUrl m1 = Some "http://localhost:0/debug"
  ∧ (debug_status m1).1 = Returned (status_active listening)
  ∧ (debug_start e (Some 0) m1).1 = Returned (already_running listening)
  ∧ listening ≠ "http://localhost:0/debug".
Proof.
  unfold Inactive. intros Hs Ht Hfree Hq Hnz Htok.
  assert (debug_start e (Some 0) m
          = (Returned (started "http://localhost:0/debug"),
             set_activeDebugUrl (Some "http://localhost:0/debug")
               (set_debugModeActive true
                  (set_server (Some q) (set_sockets (q :: sockets m) m))))) as ->.
  { unfold debug_start, findAvailablePort, createDebugServer, Bun_serve. unfold_M.
    rewrite Hs, Hfree. simpl. rewrite Hq. simpl.
    by rewrite startTunnel_no_token by (by rewrite token_of_nullish). }
  split_and!; try done.
  - rewrite debug_status_spec. cbn [fst]. simpl. unfold current_url. by rewrite Ht.
  - unfold debug_start. unfold_M. unfold current_url. by rewrite Ht.
  - intros Heq.
    change "http://localhost:0/debug" with ("http://localhost:" +:+ pretty 0 +:+ "/debug") in Heq.
    apply (inj (String.append "http://localhost:")) in Heq.
    apply append_cancel_r in Heq. by apply (inj pretty) in Heq.
Qed.

Lemma X10_port_zero_reports_port_zero_witness :
  (debug_start Sample.quiet (Some 0) init_machine).1
    = Returned (started "http://localhost:0/debug")
  ∧ (debug_status (debug_start Sample.quiet (Some 0) init_machine).2).1
    = Returned (status_active "http://localhost:49152/debug").
Proof.
  pose proof (X10_port_zero_reports_port_zero Sample.quiet init_machine 49152) as H.
  destruct (debug_start Sample.quiet (Some 0) init_machine) as [r m1].
  destruct H as (Hr & _ & Hstatus & _); try reflexivity; try done.
Defined.

(** ** The request handler *)

Lemma fetch_health logPath now req fs :
  pathname req = healthEndpoint config → method req = "GET" →
  fetch logPath now req fs
  = (Returned (jsonResponse (JObj [("status", JStr "ok")]) 200), fs).
Proof. intros Hp Hm. unfold fetch. by rewrite Hp, Hm. Qed.

Lemma fetch_not_found logPath now req fs :
  ¬ (pathname req = healthEndpoint config ∧ method req = "GET") →
  ¬ (pathname req = endpoint config ∧ method req = "POST") →
  fetch logPath now req fs
  = (Returned {| status := 404; headers := []; text := Some "Not found" |}, fs).
Proof.
  intros Hh Hi. unfold fetch.
  assert (∀ a b c d, ¬ (a = b ∧ c = d) → String.eqb a b && String.eqb c d = false) as Hno.
  { intros a b c d Hn. apply andb_false_iff.
    destruct (String.eqb_spec a b), (String.eqb_spec c d); auto; tauto. }
  by rewrite !Hno by done.
Qed.

Lemma fetch_ingest_route logPath now req fs :
  pathname req = endpoint config → method req = "POST" →
  fetch logPath now req fs = fetch logPath now (post (endpoint config) (body req)) fs.
Proof. intros Hp Hm. unfold fetch. by rewrite Hp, Hm. Qed.



(** X12. The stand-alone server mirrors the plugin's server on every
    request other than OPTIONS: same effect on the files when both log to
    the same path, and either both return, with the same status and the
    same body, or both throw the same error; the headers that the
    stand-alone server passes are its CORS headers. *)
Theorem X12_standalone_mirrors_plugin
    (now : string) (req : request) (fs : gmap string string) :
  method req ≠ "OPTIONS" →
  let '(o, fs1) := fetch Standalone.LOG_FILE now req fs in
  let '(o', fs2) := Standalone.fetch now req fs in
  fs2 = fs1
  ∧ match o, o' with
    | Returned r, Returned r' =>
        status r' = status r ∧ text r' = text r
        ∧ headers r' = Standalone.corsHeaders
    | Thrown what, Thrown what' => what' = what
    | _, _ => False
    end.
Proof.
  intros Hopt. unfold fetch, Standalone.fetch.
  rewrite (proj2 (String.eqb_neq (method req) "OPTIONS") Hopt).
  change (healthEndpoint config) with "/health". change (endpoint config) with "/debug".
  destruct (String.eqb (pathname req) "/health" && String.eqb (method req) "GET"); [done|].
  destruct (String.eqb (pathname req) "/debug" && String.eqb (method req) "POST"); [|done].
  destruct (body req) as [b|]; cbn [mbind option_bind]; [|done].
  destruct (prop "label" b) as [label|]; [|done].
  destruct (js_not (Some b) || js_not (Some label)); [done|].
  by destruct (appendToLog now Standalone.LOG_FILE label (prop "data" b) fs).
Qed.

Lemma X12_standalone_mirrors_plugin_witness :
  (Standalone.fetch "T" (Sample.labelled (JStr "A")) ∅).2
  = (fetch Standalone.LOG_FILE "T" (Sample.labelled (JStr "A")) ∅).2.
Proof.
  pose proof (X12_standalone_mirrors_plugin "T" (Sample.labelled (JStr "A")) ∅) as H.
  destruct (fetch _ _ _ _) as [r fs1], (Standalone.fetch _ _ _) as [r' fs2].
  apply H. intros [=].
Defined.

Lemma responses_accepted logPath items fs :
  Forall accepted items →
  responses logPath (ingest_all items) fs = (fun _ => Returned received) <$> items.
Proof.
  revert fs. induction items as [|[[now label] data] items IH]; intros fs Hall; [done|].
  apply Forall_cons_1 in Hall as [[Hl Htext] Hall]. simpl in Hl, Htext.
  cbn [ingest_all fmap list_fmap responses fst snd].
  rewrite fetch_accepted by done. cbn [fst snd]. f_equal. by apply IH.
Qed.

(** X13. Requests with truthy labels that convert to strings, handled one
    after the other, each to its end before the next resumes, are all
    answered 200, and the log ends as its former content followed by
    their lines in the order of the requests. *)
Theorem X13_serial_ingest_keeps_every_line
    (logPath : string) (i : string * json * option json)
    (items : list (string * json * option json)) (fs : gmap string string) :
  Forall (fun i => truthy i.1.2 = true ∧ is_Some (toString i.1.2)) (i :: items) →
  run logPath (serial (ingest_all (i :: items)).*1)
      (spawn <$> (ingest_all (i :: items)).*2) fs
  = ((fun _ => Finished received) <$> (i :: items),
     <[logPath := default EmptyString (fs !! logPath) +:+ log_lines (i :: items)]> fs).
Proof.
  intros Hall. rewrite run_serial, serve_all_appends, responses_accepted by done.
  by rewrite <- list_fmap_compose.
Qed.

Lemma X13_serial_ingest_keeps_every_line_witness :
  (run "log" (serial ["T1"; "T2"])
       [spawn (ingest (JStr "A") None); spawn (ingest (JStr "B") (Some (JInt 1)))]
       {[ "log" := "old" +:+ Js.nl ]}).2 !! "log"
  = Some ("old" +:+ Js.nl +:+ "[T1] A" +:+ Js.nl +:+ "[T2] B | 1" +:+ Js.nl).
Proof.
  pose proof (X13_serial_ingest_keeps_every_line "log" ("T1", JStr "A", None)
                [("T2", JStr "B", Some (JInt 1))] {[ "log" := "old" +:+ Js.nl ]}) as H.
  cbn [ingest_all fmap list_fmap fst snd] in H. rewrite H.
  - reflexivity.
  - repeat constructor; by eexists.
Defined.

(** X14. Two requests with truthy labels that convert to strings, whose
    handlers resume alternately, whatever their labels and data and
    whatever the log held before, are both answered 200 while the log
    ends as its former content followed by the line of the second request
    only. *)
Theorem X14_interleaved_ingest_loses_first_line
    (logPath now1 now2 : string) (label1 label2 : json) (shown1 shown2 : string)
    (data1 data2 : option json) (fs : gmap string string) :
  truthy label1 = true → truthy label2 = true →
  toString label1 = Some shown1 → toString label2 = Some shown2 →
  run logPath (Sample.interleaved now1 now2)
      [spawn (ingest label1 data1); spawn (ingest label2 data2)] fs
  = ([Finished received; Finished received],
     <[logPath := default EmptyString (fs !! logPath)
                  +:+ log_text now2 shown2 data2]> fs).
Proof.
  intros H1 H2 Htext1 Htext2.
  rewrite (lost_update logPath now1 now2 label1 data1 label2 data2 fs)
    by (split; simpl; eauto).
  by rewrite (rendered_Some label2 shown2 Htext2).
Qed.

Lemma X14_interleaved_ingest_loses_first_line_witness :
  (run "log" (Sample.interleaved "T1" "T2")
       [spawn (ingest (JStr "A") None); spawn (ingest (JStr "B") None)]
       {[ "log" := "old" +:+ Js.nl ]}).2 !! "log"
  = Some ("old" +:+ Js.nl +:+ "[T2] B" +:+ Js.nl).
Proof.
  rewrite (X14_interleaved_ingest_loses_first_line "log" "T1" "T2" (JStr "A") (JStr "B")
             "A" "B" None None {[ "log" := "old" +:+ Js.nl ]}
             eq_refl eq_refl eq_refl eq_refl).
  reflexivity.
Defined.

(** ** Writing records and reading them back *)

Lemma append_empty_l (s : string) : EmptyString +:+ s = s.
Proof. reflexivity. Qed.

Lemma nl_append (s : string) : Js.nl +:+ s = String "010"%char s.
Proof. reflexivity. Qed.

Lemma log_text_record timestamp shown data :
  log_text timestamp shown data = log_record timestamp shown data +:+ Js.nl.
Proof. destruct data; unfold log_text, log_record; by rewrite !append_assoc. Qed.

Lemma log_record_bracket timestamp shown data :
  ∃ rest, log_record timestamp shown data = String "["%char rest.
Proof. destruct data; eexists; reflexivity. Qed.

Lemma has_newline_record timestamp shown data :
  has_newline timestamp = false → has_newline shown = false →
  has_newline (log_record timestamp shown data) = false.
Proof.
  intros Hts Hl. destruct data; unfold log_record;
    by rewrite !has_newline_append, Hts, Hl, ?has_newline_stringify.
Qed.

Lemma split_no_newline r :
  has_newline r = false → Js.split "010"%char r = [r].
Proof.
  induction r as [|c r IH]; [done|]. simpl. intros [Hc Hr]%orb_false_iff.
  by rewrite Hc, IH.
Qed.

Lemma split_app sep a b :
  Js.split sep (a +:+ String sep b) = Js.split sep a ++ Js.split sep b.
Proof.
  induction a as [|x a IH].
  - rewrite append_empty_l. simpl. by rewrite Ascii.eqb_refl.
  - rewrite append_cons. simpl. rewrite IH.
    destruct (Ascii.eqb x sep); [done|].
    pose proof (split_nonempty sep a). by destruct (Js.split sep a).
Qed.

Lemma trimEnd_fixed s : ends_with_space s = false → Js.trimEnd s = s.
Proof.
  induction s as [|c s IH]; [done|]. simpl. destruct s as [|c' s].
  - simpl. by intros ->.
  - intros Hs. by rewrite (IH Hs).
Qed.

Lemma ends_with_space_append a b :
  b ≠ EmptyString → ends_with_space (a +:+ b) = ends_with_space b.
Proof.
  intros Hb. induction a as [|x a IH]; [done|].
  rewrite append_cons. simpl. rewrite <- IH.
  destruct (a +:+ b) eqn:Hab; [|done].
  apply (f_equal String.length) in Hab. rewrite length_append in Hab.
  destruct b; [done|]. simpl in Hab. lia.
Qed.

Lemma trimStart_app a b c :
  Js.is_space c = false →
  Js.trimStart (a +:+ String c b) = Js.trimStart a +:+ String c b.
Proof.
  intros Hc. induction a as [|x a IH].
  - rewrite append_empty_l. simpl. by rewrite Hc.
  - rewrite append_cons. simpl. destruct (Js.is_space x); [done|].
    by rewrite append_cons.
Qed.

Lemma trimStart_ends_newline s :
  ends_with_newline s = true →
  Js.trimStart s = EmptyString ∨ ends_with_newline (Js.trimStart s) = true.
Proof.
  induction s as [|c s IH]; [done|]. intros Hs. simpl.
  destruct (Js.is_space c); [|by right].
  destruct s as [|c' s]; [by left|]. by apply IH.
Qed.

Lemma ends_with_newline_inv s :
  ends_with_newline s = true → ∃ o, s = o +:+ Js.nl.
Proof.
  induction s as [|c s IH]; [done|]. simpl. destruct s as [|c' s].
  - intros Hc%Ascii.eqb_eq. subst c. by exists EmptyString.
  - intros Hs. destruct (IH Hs) as [o Ho]. exists (String c o).
    by rewrite append_cons, <- Ho.
Qed.

Lemma spec_nonempty_lines_last o r :
  (o = EmptyString ∨ ends_with_newline o = true) →
  has_newline r = false → r ≠ EmptyString →
  ∃ earlier, spec_nonempty_lines (o +:+ r) = earlier ++ [r].
Proof.
  intros Ho Hr Hne. unfold spec_nonempty_lines.
  destruct Ho as [->|Ho].
  - exists []. rewrite append_empty_l, (split_no_newline r) by done.
    by rewrite filter_cons_True.
  - destruct (ends_with_newline_inv o Ho) as [o' ->].
    rewrite append_assoc, nl_append, split_app, filter_app.
    rewrite (split_no_newline r) by done.
    eexists. by rewrite (filter_cons_True _ r).
Qed.

(** After an append the lines that [debug_read] works on end with the new
    record, when the log before was empty or ended with a line feed and
    the record holds no line feed and does not end with white space. *)
Lemma read_lines_after_append old timestamp shown data :
  (old = EmptyString ∨ ends_with_newline old = true) →
  has_newline timestamp = false → has_newline shown = false →
  ends_with_space (log_record timestamp shown data) = false →
  ∃ earlier,
    read_lines (old +:+ log_text timestamp shown data)
    = earlier ++ [log_record timestamp shown data].
Proof.
  intros Hold Hts Hl Hend. rewrite log_text_record, read_lines_spec.
  set (r := log_record timestamp shown data) in *.
  assert (has_newline r = false) as Hr by (by apply has_newline_record).
  destruct (log_record_bracket timestamp shown data) as [rest Hrest]. fold r in Hrest.
  assert (r ≠ EmptyString) as Hne by (by rewrite Hrest).
  assert (Js.trim (old +:+ r +:+ Js.nl) = Js.trimStart old +:+ r) as ->.
  { unfold Js.trim. rewrite Hrest, append_cons, trimStart_app by done.
    rewrite <- append_cons, <- Hrest, <- append_assoc.
    unfold Js.nl, Js.chr. rewrite trimEnd_space_end by done.
    apply trimEnd_fixed. by rewrite ends_with_space_append. }
  apply spec_nonempty_lines_last; try done.
  destruct Hold as [->|Hold]; [by left|]. by apply trimStart_ends_newline.
Qed.

Lemma select_tail_last earlier (r : string) :
  select_tail (Some 1) (earlier ++ [r]) = [r].
Proof.
  rewrite select_tail_spec. simpl. unfold spec_last.
  by rewrite reverse_app.
Qed.

Lemma pretty_N_go_prefix x s : ∃ p, pretty_N_go x s = p +:+ s.
Proof.
  revert s. induction (N.lt_wf_0 x) as [x _ IH]; intros s.
  destruct (decide (x = 0)%N) as [->|Hx]; [by exists EmptyString|].
  rewrite pretty_N_go_step by lia.
  destruct (IH (x `div` 10)%N (N.div_lt x 10 ltac:(lia) ltac:(lia))
              (String (pretty_N_char (x `mod` 10)) s)) as [p ->].
  exists (p +:+ String (pretty_N_char (x `mod` 10)) EmptyString).
  by rewrite append_assoc.
Qed.

Lemma is_space_digit x : Js.is_space (pretty_N_char x) = false.
Proof. unfold pretty_N_char. by repeat case_match. Qed.

Lemma ends_with_space_pretty_N (x : N) : ends_with_space (pretty x) = false.
Proof.
  unfold pretty, pretty_N. case_decide; [done|].
  rewrite pretty_N_go_step by lia.
  destruct (pretty_N_go_prefix (x `div` 10)
              (String (pretty_N_char (x `mod` 10)) EmptyString)) as [p ->].
  rewrite ends_with_space_append by done. simpl. apply is_space_digit.
Qed.

Lemma ends_with_space_pretty_Z (n : Z) : ends_with_space (pretty n) = false.
Proof.
  unfold pretty, pretty_Z. destruct n as [|p|p]; [done|..].
  - apply ends_with_space_pretty_N.
  - change (pretty p) with (pretty (Npos p)).
    assert (pretty (N.pos p) ≠ EmptyString) as Hne.
    { unfold pretty, pretty_N. case_decide; [done|].
      rewrite pretty_N_go_step by lia.
      destruct (pretty_N_go_prefix (N.pos p `div` 10)
                  (String (pretty_N_char (N.pos p `mod` 10)) EmptyString)) as [q ->].
      intros Heq. apply (f_equal String.length) in Heq.
      rewrite length_append in Heq. simpl in Heq. lia. }
    rewrite ends_with_space_append by done. apply ends_with_space_pretty_N.
Qed.

Lemma append_nonempty_r a b : b ≠ EmptyString → a +:+ b ≠ EmptyString.
Proof.
  intros Hb Heq. apply (f_equal String.length) in Heq. rewrite length_append in Heq.
  destruct b; [done|]. simpl in Heq. lia.
Qed.

Ltac solve_nonempty := repeat apply append_nonempty_r; by vm_compute.

(** [JSON.stringify] never ends with white space. *)
Lemma ends_with_space_stringify v : ends_with_space (JSON_stringify v) = false.
Proof.
  destruct v as [|[]|n|s|items|props]; try done.
  - apply ends_with_space_pretty_Z.
  - unfold JSON_stringify, quote. by rewrite !ends_with_space_append by solve_nonempty.
  - cbn [JSON_stringify]. by rewrite !ends_with_space_append by solve_nonempty.
  - cbn [JSON_stringify]. by rewrite !ends_with_space_append by solve_nonempty.
Qed.

Lemma pretty_N_nonempty (x : N) : pretty x ≠ EmptyString.
Proof.
  unfold pretty, pretty_N. case_decide; [done|].
  rewrite pretty_N_go_step by lia.
  destruct (pretty_N_go_prefix (x `div` 10)
              (String (pretty_N_char (x `mod` 10)) EmptyString)) as [q ->].
  by apply append_nonempty_r.
Qed.

(** When a record does not end with white space: always with data, and
    without data when the text of the label is not empty and does not. *)
Lemma ends_with_space_record timestamp shown data :
  match data with
  | Some _ => True
  | None => shown ≠ EmptyString ∧ ends_with_space shown = false
  end →
  ends_with_space (log_record timestamp shown data) = false.
Proof.
  destruct data as [d|]; unfold log_record.
  - intros _.
    rewrite !ends_with_space_append
      by (repeat apply append_nonempty_r; apply stringify_nonempty).
    apply ends_with_space_stringify.
  - intros [Hne Hend].
    by rewrite !ends_with_space_append by (by repeat apply append_nonempty_r).
Qed.

Lemma serve_request_accepted directory now label shown data m :
  truthy label = true → toString label = Some shown →
  serve_request directory now (ingest label data) m
  = (Returned received,
     set_files (<[LOG_PATH directory :=
                    default EmptyString (files m !! LOG_PATH directory)
                    +:+ log_text now shown data]> (files m)) m).
Proof.
  intros Hl Htext. unfold serve_request. unfold_M.
  rewrite fetch_accepted by eauto. by rewrite (rendered_Some label shown Htext).
Qed.

(** A request that the handler throws on leaves the state as it is. *)
Lemma serve_request_thrown directory now label data m :
  truthy label = true → toString label = None →
  serve_request directory now (ingest label data) m = (Thrown "TypeError", m).
Proof.
  intros Hl Htext. unfold serve_request. unfold_M.
  rewrite fetch_ingest_label, Hl, Htext. by destruct m.
Qed.

Lemma debug_read_lines directory tail m content line lines :
  files m !! LOG_PATH directory = Some content →
  read_lines content = line :: lines →
  debug_read directory tail m
  = (Returned (render_log (select_tail tail (line :: lines))), m).
Proof.
  intros Hfile Hlines. unfold debug_read, file_exists, file_text. unfold_M.
  rewrite Hfile. simpl. by rewrite Hlines.
Qed.

(** X15. What was written last is read back: after a POST with a truthy
    label that converts to a string, to a log that was absent, empty, or
    ended with a line feed, [debug_read] with a tail of 1 shows exactly
    the record of that POST, provided the timestamp and the text of the
    label hold no line feed and, when no data is sent, the text of the
    label is not empty and does not end with white space. *)
Theorem X15_read_returns_last_written
    (directory now : string) (label : json) (shown : string) (data : option json)
    (m : machine) :
  truthy label = true → toString label = Some shown →
  has_newline now = false → has_newline shown = false →
  match data with
  | Some _ => True
  | None => shown ≠ EmptyString ∧ ends_with_space shown = false
  end →
  (default EmptyString (files m !! LOG_PATH directory) = EmptyString
   ∨ ends_with_newline (default EmptyString (files m !! LOG_PATH directory)) = true) →
  let m' := (serve_request directory now (ingest label data) m).2 in
  debug_read directory (Some 1) m'
  = (Returned (render_log [log_record now shown data]), m').
Proof.
  intros Hl Htext Hts Hlabel Hend Hold m'. subst m'.
  rewrite (serve_request_accepted directory now label shown) by done. cbn [snd].
  destruct (read_lines_after_append
              (default EmptyString (files m !! LOG_PATH directory)) now shown data)
    as [earlier Hlines]; try done.
  { by apply ends_with_space_record. }
  assert (∃ line lines, earlier ++ [log_record now shown data] = line :: lines)
    as (line & lines & Hcons) by (destruct earlier; simpl; eauto).
  erewrite debug_read_lines.
  - by rewrite <- Hcons, select_tail_last.
  - simpl. apply lookup_insert_eq.
  - by rewrite Hlines.
Qed.

Lemma X15_read_returns_last_written_witness :
  let m := set_files {[ LOG_PATH Sample.dir := "[T0] earlier" +:+ Js.nl ]} init_machine in
  (debug_read Sample.dir (Some 1)
     (serve_request Sample.dir "T1" (ingest (JStr "api-response") (Some (JInt 200))) m).2).1
  = Returned (render_log ["[T1] api-response | 200"]).
Proof.
  intros m.
  by rewrite (X15_read_returns_last_written Sample.dir "T1" (JStr "api-response")
                "api-response" (Some (JInt 200)) m eq_refl eq_refl eq_refl eq_refl I
                (or_intror eq_refl)).
Defined.

Lemma join_cons2 sep (r r' : string) rs :
  Js.join sep (r :: r' :: rs) = r +:+ sep +:+ Js.join sep (r' :: rs).
Proof. reflexivity. Qed.

Lemma log_lines_join i items :
  log_lines (i :: items) = Js.join Js.nl (log_records (i :: items)) +:+ Js.nl.
Proof.
  revert i. induction items as [|j items IH]; intros i.
  - rewrite log_lines_cons, log_text_record. simpl. by rewrite append_empty_r.
  - rewrite log_lines_cons, IH, log_text_record.
    change (log_records (i :: j :: items))
      with (log_record i.1.1 (rendered i.1.2) i.2 :: log_records (j :: items)).
    unfold log_records at 2. cbn [fmap list_fmap].
    fold (log_records items). rewrite join_cons2.
    by rewrite !append_assoc.
Qed.

Lemma split_join (r : string) rs :
  Forall (fun r => has_newline r = false) (r :: rs) →
  Js.split "010"%char (Js.join Js.nl (r :: rs)) = r :: rs.
Proof.
  revert r. induction rs as [|r' rs IH]; intros r Hall.
  - apply Forall_cons_1 in Hall as [Hr _]. by apply split_no_newline.
  - apply Forall_cons_1 in Hall as [Hr Hall].
    rewrite join_cons2, nl_append, split_app, (split_no_newline r) by done.
    by rewrite IH.
Qed.

Lemma ends_with_space_join (r : string) rs last_r :
  Forall (fun r => r ≠ EmptyString) (r :: rs) →
  last (r :: rs) = Some last_r →
  ends_with_space (Js.join Js.nl (r :: rs)) = ends_with_space last_r.
Proof.
  revert r. induction rs as [|r' rs IH]; intros r Hall Hlast.
  - by simplify_eq/=.
  - apply Forall_cons_1 in Hall as [Hr Hall].
    rewrite join_cons2. rewrite !ends_with_space_append.
    + by apply IH.
    + destruct rs as [|r'' rs]; [by apply Forall_cons_1 in Hall as [? _]|].
      rewrite join_cons2. apply Forall_cons_1 in Hall as [Hr' _].
      intros Heq. apply (f_equal String.length) in Heq.
      rewrite length_append in Heq. destruct r'; [done|]. simpl in Heq. lia.
    + rewrite nl_append. done.
Qed.

Lemma log_records_shape items :
  Forall one_line items →
  Forall (fun r => has_newline r = false) (log_records items)
  ∧ Forall (fun r => r ≠ EmptyString) (log_records items)
  ∧ filter (fun l => l ≠ EmptyString) (log_records items) = log_records items.
Proof.
  induction 1 as [|[[ts label] data] items (Hl & Hts & Hlabel) Hall (IH1 & IH2 & IH3)];
    [done|].
  simpl in *. destruct (log_record_bracket ts (rendered label) data) as [rest Hrest].
  assert (log_record ts (rendered label) data ≠ EmptyString) as Hne by (by rewrite Hrest).
  split_and!.
  - constructor; [by apply has_newline_record|done].
  - by constructor.
  - unfold log_records in *. cbn [fmap list_fmap fst snd].
    rewrite filter_cons_True by done. by rewrite IH3.
Qed.

(** The lines read from a log that holds exactly the lines of a list of
    records are those records. *)
Lemma read_lines_log_lines i items last_i :
  Forall one_line (i :: items) →
  last (i :: items) = Some last_i →
  ends_with_space (log_record last_i.1.1 (rendered last_i.1.2) last_i.2) = false →
  read_lines (log_lines (i :: items)) = log_records (i :: items).
Proof.
  intros Hall Hlast Hend.
  destruct (log_records_shape (i :: items) Hall) as (Hnl & Hne & Hfilter).
  rewrite log_lines_join.
  set (body := Js.join Js.nl (log_records (i :: items))).
  assert (ends_with_space body = false) as Hbody.
  { subst body. unfold log_records in *. cbn [fmap list_fmap] in *.
    erewrite ends_with_space_join; [exact Hend|done|].
    change (last ((fun i => log_record i.1.1 (rendered i.1.2) i.2) <$> (i :: items))
            = Some (log_record last_i.1.1 (rendered last_i.1.2) last_i.2)).
    by rewrite fmap_last, Hlast. }
  assert (∃ rest, body = String "["%char rest) as [rest Hrest].
  { subst body. unfold log_records. cbn [fmap list_fmap].
    destruct (log_record_bracket i.1.1 (rendered i.1.2) i.2) as [rest ->].
    destruct items; eexists; reflexivity. }
  rewrite read_lines_trimmed_log, spec_nonempty_lines_newline_end.
  - unfold spec_nonempty_lines. subst body. unfold log_records in *.
    cbn [fmap list_fmap] in *. by rewrite split_join.
  - by rewrite Hrest.
  - assert (Js.trimStart body = body) as Hstart by (by rewrite Hrest).
    unfold Js.trim. rewrite Hstart. by apply trimEnd_fixed.
Qed.

Lemma serial_posts_read_back directory i last_i items tail m :
  Forall one_line (i :: items) →
  last (i :: items) = Some last_i →
  ends_with_space (log_record last_i.1.1 (rendered last_i.1.2) last_i.2) = false →
  default EmptyString (files m !! LOG_PATH directory) = EmptyString →
  let m' := set_files (serve_all (LOG_PATH directory) (ingest_all (i :: items)) (files m)) m in
  debug_read directory tail m'
  = (Returned (render_log (select_tail tail (log_records (i :: items)))), m').
Proof.
  intros Hall Hlast Hend Hold m'.
  assert (Forall accepted (i :: items)) as Htruthy.
  { eapply Forall_impl; [exact Hall|]. by intros ? (? & _). }
  subst m'. rewrite serve_all_appends, Hold, append_empty_l by done.
  pose proof (read_lines_log_lines i items last_i Hall Hlast Hend) as Hread.
  change (log_records (i :: items))
    with (log_record i.1.1 (rendered i.1.2) i.2 :: log_records items) in *.
  apply (debug_read_lines _ _ _ (log_lines (i :: items))); [|done].
  simpl. apply lookup_insert_eq.
Qed.

(** X16. Read after serial writes: when requests with truthy labels that
    convert to strings, free of line feeds in timestamp and label, are
    handled one after the other
    on a log that was absent or empty, [debug_read] shows exactly their
    records, one entry each, in the order of the requests (the last tail
    of them when a tail is given), provided the last record does not end
    with white space. *)
Theorem X16_serial_posts_are_read_back
    (directory : string) (i last_i : string * json * option json)
    (items : list (string * json * option json)) (tail : option Z) (m : machine) :
  Forall one_line (i :: items) →
  last (i :: items) = Some last_i →
  ends_with_space (log_record last_i.1.1 (rendered last_i.1.2) last_i.2) = false →
  default EmptyString (files m !! LOG_PATH directory) = EmptyString →
  let m' := set_files (serve_all (LOG_PATH directory) (ingest_all (i :: items)) (files m)) m in
  debug_read directory tail m'
  = (Returned (render_log (select_tail tail (log_records (i :: items)))), m')
  ∧ length (log_records (i :: items)) = S (length items).
Proof.
  intros Hall Hlast Hend Hold m'. split; [|by unfold log_records; rewrite length_fmap].
  by apply (serial_posts_read_back directory i last_i).
Qed.

Lemma X16_serial_posts_are_read_back_witness :
  let m' :=
    set_files (serve_all (LOG_PATH Sample.dir)
                 (ingest_all [("T1", JStr "A", None); ("T2", JStr "B", Some (JInt 1))]) ∅)
      init_machine in
  debug_read Sample.dir None m' = (Returned (render_log ["[T1] A"; "[T2] B | 1"]), m').
Proof.
  apply (X16_serial_posts_are_read_back Sample.dir ("T1", JStr "A", None)
           ("T2", JStr "B", Some (JInt 1)) [("T2", JStr "B", Some (JInt 1))]
           None init_machine); try reflexivity.
  by repeat constructor.
Defined.

Lemma debug_clear_spec directory m :
  default EmptyString (files (debug_clear directory m).2 !! LOG_PATH directory) = EmptyString
  ∧ ∀ path, path ≠ LOG_PATH directory →
      files (debug_clear directory m).2 !! path = files m !! path.
Proof.
  unfold debug_clear, file_exists, Bun_write. unfold_M.
  destruct (files m !! LOG_PATH directory) as [c|] eqn:Hc; simpl.
  - rewrite lookup_insert_eq. split; [done|]. intros path Hp. by rewrite lookup_insert_ne.
  - by rewrite Hc.
Qed.

(** X17. Clearing starts afresh: after [debug_clear], whatever the log
    held (or if there was none), requests with truthy labels that convert
    to strings, free of line feeds in timestamp and label, handled one
    after the other, are read back by [debug_read] as exactly their
    records, in order, provided the last record does not end with white
    space; nothing of the earlier log is shown. *)
Theorem X17_clear_starts_afresh
    (directory : string) (i last_i : string * json * option json)
    (items : list (string * json * option json)) (tail : option Z) (m : machine) :
  Forall one_line (i :: items) →
  last (i :: items) = Some last_i →
  ends_with_space (log_record last_i.1.1 (rendered last_i.1.2) last_i.2) = false →
  let cleared := (debug_clear directory m).2 in
  let m' := set_files (serve_all (LOG_PATH directory) (ingest_all (i :: items))
                         (files cleared)) cleared in
  (debug_read directory tail m').1
  = Returned (render_log (select_tail tail (log_records (i :: items)))).
Proof.
  intros Hall Hlast Hend cleared m'. subst m'.
  rewrite (serial_posts_read_back directory i last_i); try done.
  apply debug_clear_spec.
Qed.

Lemma X17_clear_starts_afresh_witness :
  let cleared :=
    (debug_clear Sample.dir
       (set_files {[ LOG_PATH Sample.dir := "[T0] stale" +:+ Js.nl ]} init_machine)).2 in
  (debug_read Sample.dir None
     (set_files (serve_all (LOG_PATH Sample.dir) (ingest_all [("T1", JStr "A", None)])
                   (files cleared)) cleared)).1
  = Returned (render_log ["[T1] A"]).
Proof.
  apply (X17_clear_starts_afresh Sample.dir ("T1", JStr "A", None) ("T1", JStr "A", None) []
           None); try reflexivity.
  by repeat constructor.
Defined.

(** ** The test client *)

Lemma sendLog_plugin logPath now label data fs :
  sendLog (Some (fetch logPath now)) label data fs
  = if Js.nonempty label
    then (true, <[logPath := default EmptyString (fs !! logPath)
                             +:+ log_text now label data]> fs)
    else (false, fs).
Proof.
  unfold sendLog.
  change {| method := "POST"; pathname := "/debug"; body := ?b |}
    with (ingest (JStr label) data).
  rewrite fetch_ingest_label. simpl. by destruct (Js.nonempty label).
Qed.

(** X18. The test client and the servers agree: [sendLog] returns true
    exactly when a server answers and the label is not empty, and then
    the server has appended the line of that label and data to its log;
    with an empty label or without a server it returns false and no file
    has changed. This holds against the plugin's server and against the
    stand-alone server alike. *)
Theorem X18_sendLog_succeeds_iff_logged
    (logPath now label : string) (data : option json) (fs : gmap string string) :
  sendLog (Some (fetch logPath now)) label data fs
    = (if Js.nonempty label
       then (true, <[logPath := default EmptyString (fs !! logPath)
                                +:+ log_text now label data]> fs)
       else (false, fs))
  ∧ sendLog (Some (Standalone.fetch now)) label data fs
    = sendLog (Some (fetch Standalone.LOG_FILE now)) label data fs
  ∧ sendLog None label data fs = (false, fs).
Proof.
  split_and!; [apply sendLog_plugin| |done].
  unfold sendLog.
  set (req := {| method := "POST"; pathname := "/debug"; body := _ |}).
  unfold fetch, Standalone.fetch. subst req.
  cbn [method pathname body healthEndpoint endpoint config defaultConfig].
  replace (String.eqb "POST" "OPTIONS") with false by done.
  replace (String.eqb "/debug" "/health" && String.eqb "POST" "GET") with false by done.
  replace (String.eqb "/debug" "/debug" && String.eqb "POST" "POST") with true by done.
  cbn [mbind option_bind prop lookup_prop]. replace (String.eqb "label" "label") with true by done.
  destruct (js_not _ || js_not _); [done|].
  unfold appendToLog, log_line. by cbn [toString mbind option_bind].
Qed.

(** ** What the plugin writes *)

Lemma debug_start_files e args_port m : files (debug_start e args_port m).2 = files m.
Proof. unfold_start. by repeat (case_match; simplify_eq/=). Qed.

Lemma exec_files directory c m :
  (writes c.2 = false → files (exec directory c m) = files m)
  ∧ ∀ path, path ≠ LOG_PATH directory →
      files (exec directory c m) !! path = files m !! path.
Proof.
  destruct c as [e [p| | |t| |auth|system|now req]]; unfold exec; simpl.
  - rewrite debug_start_files. by split.
  - rewrite debug_stop_files. by split.
  - split; [done|]. apply debug_clear_spec.
  - unfold debug_read. unfold_M. split; [intros _|intros path _]; by repeat case_match.
  - unfold debug_status. unfold_M. split; [intros _|intros path _]; by repeat case_match.
  - unfold auth_loader. unfold_M. split; [intros _|intros path _]; by repeat case_match.
  - unfold system_transform. unfold_M.
    split; [intros _|intros path _]; by repeat case_match.
  - split; [done|]. intros path Hpath. destruct (server m); [|done].
    unfold serve_request. unfold_M.
    destruct (fetch (LOG_PATH directory) now req (files m)) as [r fs'] eqn:Hfetch. simpl.
    destruct (decide (pathname req = endpoint config ∧ method req = "POST"))
      as [[Hp Hm]|Hno].
    + rewrite fetch_ingest_route, fetch_ingest in Hfetch by done.
      repeat (case_match; simplify_eq/=); try done. by rewrite lookup_insert_ne.
    + destruct (decide (pathname req = healthEndpoint config ∧ method req = "GET"))
        as [[Hp Hm]|Hno'].
      * rewrite fetch_health in Hfetch by done. by simplify_eq.
      * rewrite fetch_not_found in Hfetch by done. by simplify_eq.
Qed.

(** X19. The plugin writes no file but its log: whatever tools and hooks
    are called and whatever requests arrive, every file other than the
    log of the plugin's directory is as it was; and no call other than
    [debug_clear] or a request changes any file at all, be it a start
    that fails or a stop. *)
Theorem X19_only_the_log_is_written
    (directory : string) (calls : list (env * call)) (m : machine) :
  (∀ path, path ≠ LOG_PATH directory →
     files (exec_all directory calls m) !! path = files m !! path)
  ∧ (Forall (fun c => writes c.2 = false) calls →
     files (exec_all directory calls m) = files m).
Proof.
  revert m. induction calls as [|c calls IH]; intros m; [done|].
  destruct (IH (exec directory c m)) as [IH1 IH2].
  destruct (exec_files directory c m) as [Hsame Hother].
  cbn [exec_all foldl]. fold (exec_all directory calls (exec directory c m)). split.
  - intros path Hpath. rewrite IH1 by done. by apply Hother.
  - intros [Hc Hcalls]%Forall_cons_1. rewrite IH2 by done. by apply Hsame.
Qed.

Lemma X19_only_the_log_is_written_witness :
  files (exec_all Sample.dir
           [(Sample.refused, Start (Some 3333)); (Sample.refused, Status);
            (Sample.refused, Stop)]
           (set_files {[ "/work/.opencode/debug.log" := "[T0] kept" +:+ Js.nl ]} init_machine))
  = {[ "/work/.opencode/debug.log" := "[T0] kept" +:+ Js.nl ]}.
Proof.
  rewrite (proj2 (X19_only_the_log_is_written Sample.dir _ _)).
  - reflexivity.
  - by repeat constructor.
Defined.

(** ** Blank logs *)

Lemma trimStart_blank s : blank s = true → Js.trimStart s = EmptyString.
Proof.
  induction s as [|c s IH]; [done|]. simpl. intros [Hc Hs]%andb_true_iff.
  rewrite Hc. by apply IH.
Qed.

Lemma trimStart_nonblank s :
  blank s = false → ∃ c rest, Js.trimStart s = String c rest ∧ Js.is_space c = false.
Proof.
  induction s as [|c s IH]; [done|]. simpl.
  destruct (Js.is_space c) eqn:Hc; simpl; [apply IH|]. intros _. by exists c, s.
Qed.

Lemma trimEnd_head c rest :
  Js.is_space c = false → ∃ rest', Js.trimEnd (String c rest) = String c rest'.
Proof.
  intros Hc. simpl. destruct (Js.trimEnd rest); [|by eexists].
  rewrite Hc. by eexists.
Qed.

Lemma split_head c s :
  Ascii.eqb c "010"%char = false →
  ∃ l ls, Js.split "010"%char (String c s) = String c l :: ls.
Proof.
  intros Hc. simpl. rewrite Hc. pose proof (split_nonempty "010"%char s).
  destruct (Js.split "010"%char s); [done|]. by do 2 eexists.
Qed.

Lemma is_space_newline c : Js.is_space c = false → Ascii.eqb c "010"%char = false.
Proof.
  intros Hc. destruct (Ascii.eqb_spec c "010"%char) as [->|]; [|done]. done.
Qed.

Lemma read_lines_of_nonblank content :
  blank content = false → ∃ line lines, read_lines content = line :: lines.
Proof.
  intros Hb. destruct (trimStart_nonblank content Hb) as (c & rest & Hstart & Hc).
  destruct (trimEnd_head c rest Hc) as [rest' Hend].
  destruct (split_head c rest' (is_space_newline c Hc)) as (l & ls & Hsplit).
  unfold read_lines, Js.trim. rewrite Hstart, Hend, Hsplit.
  rewrite filter_cons_True by done. by do 2 eexists.
Qed.

(** X20. [debug_read] tells three cases apart: without a log file it
    answers that there is no log yet; on a log file it answers that the
    log is empty exactly when the file holds white space only (nothing,
    or blank lines); and on any other log file it shows at least one
    entry. None of the three kinds of answer is ever one of the others. *)
Theorem X20_read_tells_missing_empty_and_entries
    (directory : string) (tail : option Z) (m : machine) :
  match files m !! LOG_PATH directory with
  | None => debug_read directory tail m = (Returned no_log_yet, m)
  | Some content =>
      (blank content = true ↔ debug_read directory tail m = (Returned log_is_empty, m))
      ∧ (blank content = false →
         ∃ line lines, read_lines content = line :: lines
           ∧ debug_read directory tail m
             = (Returned (render_log (select_tail tail (line :: lines))), m))
  end
  ∧ no_log_yet ≠ log_is_empty
  ∧ ∀ output, render_log output ≠ no_log_yet ∧ render_log output ≠ log_is_empty.
Proof.
  assert (∀ output, render_log output ≠ no_log_yet ∧ render_log output ≠ log_is_empty)
    as Hrender.
  { intros output. unfold render_log, Js.join. cbn [String.concat].
    split; intros Heq; rewrite append_cons in Heq; by injection Heq. }
  split_and!; [|done|done].
  destruct (files m !! LOG_PATH directory) as [content|] eqn:Hfile.
  2: { unfold debug_read, file_exists. unfold_M. by rewrite Hfile. }
  destruct (blank content) eqn:Hb.
  - assert (read_lines content = []) as Hlines.
    { unfold read_lines, Js.trim. by rewrite trimStart_blank. }
    assert (debug_read directory tail m = (Returned log_is_empty, m)) as Hread.
    { unfold debug_read, file_exists, file_text. unfold_M. rewrite Hfile. simpl.
      by rewrite Hlines. }
    by split.
  - destruct (read_lines_of_nonblank content Hb) as (line & lines & Hlines).
    rewrite (debug_read_lines directory tail m content line lines) by done.
    split; [|by eauto]. split; [done|].
    intros [= Heq]; by apply (proj2 (Hrender _)) in Heq.
Qed.

Lemma X20_read_tells_missing_empty_and_entries_witness :
  debug_read Sample.dir None
    (set_files {[ LOG_PATH Sample.dir := Js.nl +:+ "  " +:+ Js.nl ]} init_machine)
  = (Returned log_is_empty,
     set_files {[ LOG_PATH Sample.dir := Js.nl +:+ "  " +:+ Js.nl ]} init_machine).
Proof.
  pose proof (X20_read_tells_missing_empty_and_entries Sample.dir None
                (set_files {[ LOG_PATH Sample.dir := Js.nl +:+ "  " +:+ Js.nl ]} init_machine))
    as [H _].
  simpl in H. rewrite lookup_singleton_eq in H. by apply H.
Defined.
